(** * Project Sentinel: the incident detectors and the incident log

    A shallow embedding of the two detection programs of the repository:

    - the batch pipeline ([data_loader.py], [event_detector.py] and
      [main.py] of the submission structure), which loads every stream,
      runs eight detectors in a fixed order, sorts the incidents by
      timestamp and renumbers them;
    - the inventory ledger of the streaming program ([Team01_sentinel],
      [main.py]), the global [inventory_levels] updated record by record.

    Conventions.  A Python expression that can raise (a [d['key']] on a
    missing key) is a computation in the [option] monad, [None] standing
    for the raised exception.  A timestamp is the number of seconds it
    denotes.  A JSON number that is only compared or truncated is the
    rational it denotes; the rounded operations of double arithmetic
    (product, quotient, difference, and the reading of a decimal string)
    are kept as an interface, [FloatArith]. *)

From Stdlib Require Import ZArith QArith Qabs Qround List String Ascii Lia.
From Stdlib Require Import DecimalString DecimalNat.
From stdpp Require Import gmap strings list sorting.

Close Scope Q_scope.
#[local] Open Scope string_scope.
#[local] Open Scope Z_scope.

(** ** Python values *)

(** Truth value of an optional string: [None] and the empty string are
    false. *)
Definition truthy (o : option string) : bool :=
  match o with
  | Some s => negb (String.eqb s "")
  | None => false
  end.

(** [x > y] on numbers read as rationals. *)
Definition Qgtb (x y : Q) : bool := negb (Qle_bool x y).

(** [int(x)]: truncation towards zero. *)
Definition int_of_Q (x : Q) : Z := Z.quot (Qnum x) (Zpos (Qden x)).

(** The operations of double arithmetic that round. *)
Class FloatArith := {
  float_of_string : string -> option Q;   (* float(s); None is ValueError *)
  fmul : Q -> Q -> Q;                     (* x * y *)
  fdiv : Q -> Q -> Q;                     (* x / y *)
  fsub : Q -> Q -> Q                      (* x - y *)
}.

(** ** Records of the input streams *)

(** The [data] object of an event; a missing key is [None], and a missing
    [data] object is the payload with every key missing. *)
Record payload := {
  sku : option string;
  customer_id : option string;
  weight_g : option Q;
  location : option string;
  customer_count : option Z;
  average_dwell_time : option Q;
  predicted_product : option string;
  accuracy : option Q
}.

Definition no_data : payload :=
  {| sku := None; customer_id := None; weight_g := None; location := None;
     customer_count := None; average_dwell_time := None;
     predicted_product := None; accuracy := None |}.

Record event := {
  timestamp : option Z;
  station_id : option string;
  data : payload
}.

(** An inventory snapshot: its [data] maps a SKU to a quantity, in the
    order of the JSON object (whose keys are distinct). *)
Record snapshot := {
  snap_timestamp : option Z;
  snap_data : list (string * Z)
}.

(** A row of [products_list.csv]. *)
Record product := {
  prod_SKU : option string;
  prod_Weight : option string
}.

(** ** Incidents *)

Inductive event_data :=
| ScannerAvoidance (station : string) (customer : option string)
                   (product_sku : option string)
| BarcodeSwitching (station : string) (customer : option string)
                   (actual_sku : string) (scanned_sku : option string)
| WeightDiscrepancies (station : string) (customer : option string)
                      (product_sku : string) (expected_weight actual_weight : Z)
| LongQueueLength (station : string) (num_of_customers : Z)
| LongWaitTime (station : string) (wait_time_seconds : Z)
| UnexpectedSystemsCrash (station : string) (duration_seconds : Z)
| InventoryDiscrepancy (SKU : string) (Expected_Inventory Actual_Inventory : Z)
| SuccesOperation (station : string) (customer : option string)
                  (product_sku : option string).

Definition event_name (d : event_data) : string :=
  match d with
  | ScannerAvoidance _ _ _ => "Scanner Avoidance"
  | BarcodeSwitching _ _ _ _ => "Barcode Switching"
  | WeightDiscrepancies _ _ _ _ _ => "Weight Discrepancies"
  | LongQueueLength _ _ => "Long Queue Length"
  | LongWaitTime _ _ => "Long Wait Time"
  | UnexpectedSystemsCrash _ _ => "Unexpected Systems Crash"
  | InventoryDiscrepancy _ _ _ => "Inventory Discrepancy"
  | SuccesOperation _ _ _ => "Succes Operation"
  end.

Record incident := {
  inc_timestamp : Z;
  event_id : string;
  inc_data : event_data
}.

(** ** Event identifiers: [f'E{idx:03d}'] *)

Fixpoint zero_pad (n : nat) (digits : string) : string :=
  match n with
  | O => digits
  | S n' => String "0" (zero_pad n' digits)
  end.

(** [format(idx, '03d')]: the decimal digits, padded with zeros on the
    left up to three characters. *)
Definition format_03d (idx : nat) : string :=
  let digits := NilZero.string_of_uint (Nat.to_uint idx) in
  zero_pad (3 - String.length digits) digits.

Definition format_event_id (idx : nat) : string := String "E" (format_03d idx).

(** The number an identifier stands for. *)
Definition event_id_number (s : string) : option nat :=
  match s with
  | String "E" digits => Nat.of_uint <$> NilZero.uint_of_string digits
  | _ => None
  end.

(** ** Sorting: [list.sort(key=...)]

    Python's sort is stable; with the keys computed first, it is the
    stable sort of the list of (key, element) pairs on the key. *)

Fixpoint insert_by_key {A} (p : Z * A) (l : list (Z * A)) : list (Z * A) :=
  match l with
  | [] => [p]
  | q :: l' => if p.1 <=? q.1 then p :: q :: l' else q :: insert_by_key p l'
  end.

Fixpoint stable_sort {A} (l : list (Z * A)) : list (Z * A) :=
  match l with
  | [] => []
  | p :: l' => insert_by_key p (stable_sort l')
  end.

(** [l.sort(key=lambda x: datetime.fromisoformat(x['timestamp']))]: the
    key raises on a record without a timestamp. *)
Definition with_key {A} (key : A -> option Z) (x : A) : option (Z * A) :=
  k ← key x; Some (k, x).

Definition sort_by {A} (key : A -> option Z) (l : list A) : option (list A) :=
  keyed ← mapM (with_key key) l; Some ((stable_sort keyed).*2).

(** ** The batch detectors ([event_detector.py])

    A detector builds its list [events] by appending, with a counter that
    is the number of incidents appended so far: the incident appended at
    position [i] carries the identifier [E{i:03d}].  The model collects the
    emissions (timestamp and [event_data]) in order and [number]s them. *)

Abbreviation emission := (Z * event_data)%type (only parsing).

Definition number (emitted : list emission) : list incident :=
  imap (λ i e, {| inc_timestamp := e.1;
                  event_id := format_event_id i;
                  inc_data := e.2 |}) emitted.

(** [abs((t1 - t2).total_seconds()) <= window] *)
Definition in_window (window t1 t2 : Z) : bool := Z.abs (t1 - t2) <=? window.

(** A [defaultdict(list)] filled by [d[x['station_id']].append(x)] in input
    order: the list of the (station, record) pairs; the key lookup raises on
    a record without station. *)
Definition by_station (l : list event) : option (list (string * event)) :=
  mapM (λ x, s ← station_id x; Some (s, x)) l.

(** [d.get(station, [])] *)
Definition station_get (d : list (string * event)) (s : string) : list event :=
  (filter (λ p, p.1 = s) d).*2.

(** The keys of a dictionary in insertion order. *)
Fixpoint insertion_order (keys : list string) : list string :=
  match keys with
  | [] => []
  | k :: keys' => k :: filter (λ x, x ≠ k) (insertion_order keys')
  end.

Section Detectors.
Context `{FloatArith}.

(** *** Scanner avoidance *)

Definition in_scan_area (rfid : event) : bool :=
  bool_decide (location (data rfid) = Some "IN_SCAN_AREA").

(** The inner loop: the set of the SKUs read within the window. *)
Fixpoint rfid_skus_in_window (window pos_time : Z) (rfids : list event)
    (rfid_skus : gset (option string)) : option (gset (option string)) :=
  match rfids with
  | [] => Some rfid_skus
  | rfid :: rest =>
      rfid_time ← timestamp rfid;
      rfid_skus_in_window window pos_time rest
        (if in_window window rfid_time pos_time
         then rfid_skus ∪ {[ sku (data rfid) ]} else rfid_skus)
  end.

(** The body of the loop over the POS transactions.  The order in which a
    Python set is iterated is not specified; [elements] is one order. *)
Definition scanner_avoidance_of_pos (window : Z)
    (rfid_by_station : list (string * event)) (pos : event)
    : option (list emission) :=
  station ← station_id pos;
  let customer := customer_id (data pos) in
  let pos_sku := sku (data pos) in
  pos_time ← timestamp pos;
  rfid_skus ← rfid_skus_in_window window pos_time
                 (station_get rfid_by_station station) ∅;
  let unscanned_skus := rfid_skus ∖ {[ pos_sku ]} in
  Some ((λ unscanned_sku,
           (pos_time, ScannerAvoidance station customer unscanned_sku))
        <$> elements unscanned_skus).

Definition detect_scanner_avoidance (pos_transactions rfid_readings : list event)
    (time_window_seconds : Z) : option (list incident) :=
  rfid_by_station ← by_station (filter (λ r, in_scan_area r = true) rfid_readings);
  emitted ← mapM (scanner_avoidance_of_pos time_window_seconds rfid_by_station)
                 pos_transactions;
  Some (number (concat emitted)).

(** *** Barcode switching *)

Definition confident (recog : event) : bool :=
  Qgtb (default 0%Q (accuracy (data recog))) (1 # 2).

(** The inner loop, left at the first qualifying recognition. *)
Fixpoint first_switch (window pos_time : Z) (scanned_sku : option string)
    (recogs : list event) : option (option string) :=
  match recogs with
  | [] => Some None
  | recog :: rest =>
      recog_time ← timestamp recog;
      if in_window window recog_time pos_time then
        let predicted_sku := predicted_product (data recog) in
        if truthy predicted_sku && bool_decide (predicted_sku ≠ scanned_sku)
        then Some predicted_sku
        else first_switch window pos_time scanned_sku rest
      else first_switch window pos_time scanned_sku rest
  end.

Definition barcode_switching_of_pos (window : Z)
    (recognition_by_station : list (string * event)) (pos : event)
    : option (list emission) :=
  station ← station_id pos;
  let customer := customer_id (data pos) in
  let scanned_sku := sku (data pos) in
  pos_time ← timestamp pos;
  found ← first_switch window pos_time scanned_sku
             (station_get recognition_by_station station);
  Some match found with
       | Some predicted_sku =>
           [(pos_time, BarcodeSwitching station customer predicted_sku scanned_sku)]
       | None => []
       end.

Definition detect_barcode_switching (pos_transactions product_recognition : list event)
    (time_window_seconds : Z) : option (list incident) :=
  recognition_by_station ←
    by_station (filter (λ r, confident r = true) product_recognition);
  emitted ← mapM (barcode_switching_of_pos time_window_seconds recognition_by_station)
                 pos_transactions;
  Some (number (concat emitted)).

(** *** Weight discrepancies *)

Definition product_weights_of (products_list : list product) : gmap string Q :=
  foldl (λ product_weights product,
           match prod_SKU product, prod_Weight product with
           | Some s, Some weight =>
               if truthy (Some s) && truthy (Some weight) then
                 match float_of_string weight with
                 | Some w => <[s := w]> product_weights
                 | None => product_weights
                 end
               else product_weights
           | _, _ => product_weights
           end) ∅ products_list.

(** [weight_diff > tolerance] *)
Definition weight_out_of_tolerance (tolerance_percent expected_weight actual_weight : Q)
    : bool :=
  let weight_diff := Qabs (fsub actual_weight expected_weight) in
  let tolerance := fmul expected_weight (fdiv tolerance_percent 100%Q) in
  Qgtb weight_diff tolerance.

Definition weight_discrepancy_of_pos (tolerance_percent : Q)
    (product_weights : gmap string Q) (pos : event) : option (list emission) :=
  let customer := customer_id (data pos) in
  station ← station_id pos;
  match sku (data pos) ≫= (λ s, (λ w, (s, w)) <$> product_weights !! s),
        weight_g (data pos) with
  | Some (s, expected_weight), Some actual_weight =>
      if negb (Qeq_bool actual_weight 0%Q)
         && weight_out_of_tolerance tolerance_percent expected_weight actual_weight
      then
        t ← timestamp pos;
        Some [(t, WeightDiscrepancies station customer s
                    (int_of_Q expected_weight) (int_of_Q actual_weight))]
      else Some []
  | _, _ => Some []
  end.

Definition detect_weight_discrepancies (pos_transactions : list event)
    (products_list : list product) (tolerance_percent : Q) : option (list incident) :=
  let product_weights := product_weights_of products_list in
  emitted ← mapM (weight_discrepancy_of_pos tolerance_percent product_weights)
                 pos_transactions;
  Some (number (concat emitted)).

(** *** Long queues and long waits *)

Definition long_queue_of (threshold : Z) (queue : event) : option (list emission) :=
  let count := default 0 (customer_count (data queue)) in
  station ← station_id queue;
  if threshold <? count then
    t ← timestamp queue; Some [(t, LongQueueLength station count)]
  else Some [].

Definition detect_long_queues (queue_monitoring : list event) (threshold : Z)
    : option (list incident) :=
  emitted ← mapM (long_queue_of threshold) queue_monitoring;
  Some (number (concat emitted)).

Definition long_wait_of (threshold_seconds : Q) (queue : event)
    : option (list emission) :=
  let avg_dwell_time := default 0%Q (average_dwell_time (data queue)) in
  station ← station_id queue;
  if Qgtb avg_dwell_time threshold_seconds then
    t ← timestamp queue; Some [(t, LongWaitTime station (int_of_Q avg_dwell_time))]
  else Some [].

Definition detect_long_wait_times (queue_monitoring : list event)
    (threshold_seconds : Q) : option (list incident) :=
  emitted ← mapM (long_wait_of threshold_seconds) queue_monitoring;
  Some (number (concat emitted)).

(** *** System crashes *)

(** The events that have a (non-empty) station, under their station. *)
Definition station_events_of (all_events : list event) : list (string * event) :=
  omap (λ x, match station_id x with
             | Some s => if truthy (Some s) then Some (s, x) else None
             | None => None
             end) all_events.

(** The body of [for i in range(len(station_event_list) - 1)]. *)
Definition crash_at (station : string) (gap_threshold_seconds : Z)
    (station_event_list : list event) (i : nat) : option (list emission) :=
  current ← station_event_list !! i;
  next ← station_event_list !! S i;
  current_time ← timestamp current;
  next_time ← timestamp next;
  let gap := next_time - current_time in
  Some (if gap_threshold_seconds <=? gap
        then [(next_time, UnexpectedSystemsCrash station gap)] else []).

Definition crashes_of_station (gap_threshold_seconds : Z)
    (station_events : list (string * event)) (station : string)
    : option (list emission) :=
  station_event_list ← sort_by timestamp (station_get station_events station);
  emitted ← mapM (crash_at station gap_threshold_seconds station_event_list)
                 (seq 0 (length station_event_list - 1));
  Some (concat emitted).

Definition detect_system_crashes (all_events : list event)
    (gap_threshold_seconds : Z) : option (list incident) :=
  let station_events := station_events_of all_events in
  emitted ← mapM (crashes_of_station gap_threshold_seconds station_events)
                 (insertion_order station_events.*1);
  Some (number (concat emitted)).

(** *** Inventory discrepancies (batch) *)

(** [if sku in expected_inventory: expected_inventory[sku] -= 1] *)
Definition decrement (s : string) (inventory : list (string * Z))
    : list (string * Z) :=
  (λ p, if decide (p.1 = s) then (p.1, p.2 - 1) else p) <$> inventory.

Fixpoint expected_after (snapshot_time : Z) (pos_transactions : list event)
    (expected_inventory : list (string * Z)) : option (list (string * Z)) :=
  match pos_transactions with
  | [] => Some expected_inventory
  | pos :: rest =>
      pos_time ← timestamp pos;
      expected_after snapshot_time rest
        (if snapshot_time <? pos_time then
           match sku (data pos) with
           | Some s => decrement s expected_inventory
           | None => expected_inventory
           end
         else expected_inventory)
  end.

(** [inventory_data.get(sku, 0)] *)
Definition quantity_get (inventory_data : list (string * Z)) (s : string) : Z :=
  default 0 ((λ r, r.2.2) <$> list_find (λ p, p.1 = s) inventory_data).

Definition inventory_discrepancy_of (threshold_percent : Q) (snapshot_time : Z)
    (inventory_data : list (string * Z)) (entry : string * Z) : list emission :=
  let '(s, expected_qty) := entry in
  let actual_qty := quantity_get inventory_data s in
  if 0 <? actual_qty then
    let variance_percent :=
      fmul (fdiv (inject_Z (Z.abs (expected_qty - actual_qty))) (inject_Z actual_qty))
           100%Q in
    if Qgtb variance_percent threshold_percent
       && (5 <? Z.abs (expected_qty - actual_qty))
    then [(snapshot_time, InventoryDiscrepancy s actual_qty expected_qty)]
    else []
  else [].

Definition detect_inventory_discrepancies (inventory_snapshots : list snapshot)
    (pos_transactions : list event) (threshold_percent : Q)
    : option (list incident) :=
  match inventory_snapshots with
  | [] => Some []
  | initial_snapshot :: _ =>
      let inventory_data := snap_data initial_snapshot in
      snapshot_time ← snap_timestamp initial_snapshot;
      expected_inventory ← expected_after snapshot_time pos_transactions inventory_data;
      Some (number (concat (inventory_discrepancy_of threshold_percent snapshot_time
                              inventory_data <$> expected_inventory)))
  end.

(** *** Success operations *)

(** The inner loop, left at the first matching RFID reading. *)
Fixpoint rfid_matches (window pos_time : Z) (pos_sku : option string)
    (rfids : list event) : option bool :=
  match rfids with
  | [] => Some false
  | rfid :: rest =>
      rfid_time ← timestamp rfid;
      let rfid_sku := sku (data rfid) in
      if in_window window rfid_time pos_time && bool_decide (rfid_sku = pos_sku)
      then Some true
      else rfid_matches window pos_time pos_sku rest
  end.

Definition success_operation_of_pos (window : Z)
    (rfid_by_station : list (string * event)) (pos : event)
    : option (list emission) :=
  station ← station_id pos;
  let customer := customer_id (data pos) in
  let pos_sku := sku (data pos) in
  pos_time ← timestamp pos;
  rfid_match ← rfid_matches window pos_time pos_sku
                  (station_get rfid_by_station station);
  Some (if rfid_match : bool
        then [(pos_time, SuccesOperation station customer pos_sku)] else []).

Definition detect_success_operations (pos_transactions rfid_readings : list event)
    (time_window_seconds : Z) : option (list incident) :=
  rfid_by_station ← by_station rfid_readings;
  emitted ← mapM (success_operation_of_pos time_window_seconds rfid_by_station)
                 pos_transactions;
  Some (number (concat emitted)).

(** ** The batch pipeline ([data_loader.py], [main.py]) *)

Record dataset := {
  pos_transactions : list event;
  rfid_readings : list event;
  queue_monitoring : list event;
  product_recognition : list event;
  inventory_snapshots : list snapshot;
  products_list : list product
}.

(** [load_all_data], from the decoded files: the four event streams are
    sorted by timestamp, the snapshots and the catalog are left as read. *)
Definition load_all_data (files : dataset) : option dataset :=
  pos ← sort_by timestamp (pos_transactions files);
  rfid ← sort_by timestamp (rfid_readings files);
  queue ← sort_by timestamp (queue_monitoring files);
  recog ← sort_by timestamp (product_recognition files);
  Some {| pos_transactions := pos; rfid_readings := rfid;
          queue_monitoring := queue; product_recognition := recog;
          inventory_snapshots := inventory_snapshots files;
          products_list := products_list files |}.

(** The incidents of the eight detectors, in the order of the calls. *)
Definition detect_all (d : dataset) : option (list (list incident)) :=
  sa ← detect_scanner_avoidance (pos_transactions d) (rfid_readings d) 10;
  bs ← detect_barcode_switching (pos_transactions d) (product_recognition d) 5;
  wd ← detect_weight_discrepancies (pos_transactions d) (products_list d) 20%Q;
  lq ← detect_long_queues (queue_monitoring d) 5;
  lw ← detect_long_wait_times (queue_monitoring d) 300%Q;
  let all_events := (pos_transactions d ++ rfid_readings d
                     ++ queue_monitoring d ++ product_recognition d)%list in
  sc ← detect_system_crashes all_events 120;
  inv ← detect_inventory_discrepancies (inventory_snapshots d) (pos_transactions d) 10%Q;
  so ← detect_success_operations (pos_transactions d) (rfid_readings d) 10;
  Some [sa; bs; wd; lq; lw; sc; inv; so].

(** [event['event_id'] = f'E{idx:03d}'] for [idx, event] in [enumerate]. *)
Definition reassign_event_ids (events : list incident) : list incident :=
  imap (λ idx event, {| inc_timestamp := inc_timestamp event;
                        event_id := format_event_id idx;
                        inc_data := inc_data event |}) events.

(** The sort and the renumbering that end [process_events]. *)
Definition finalize (all_detected_events : list incident) : list incident :=
  reassign_event_ids
    (stable_sort ((λ x, (inc_timestamp x, x)) <$> all_detected_events)).*2.

(** [process_events]: the lines written to the output file, or [None] when
    the run stops on an exception. *)
Definition process_events (files : dataset) : option (list incident) :=
  d ← load_all_data files;
  detected ← detect_all d;
  Some (finalize (concat detected)).

End Detectors.

(** ** The inventory ledger of the streaming program
    ([Team01_sentinel/src/main.py])

    The program reads one decoded record at a time and hands it to each
    detector; [detect_inventory_discrepancy] is the only one that reads
    and writes the global [inventory_levels], which is passed explicitly
    here. *)

Module Streaming.

(** The [event] object of a record, by its [dataset]. *)
Inductive stream_event :=
| POS_Transactions (pos_data : payload)
| Current_inventory_data (snapshot_data : list (string * Z))
| other_dataset (dataset : string).

Record stream_data := {
  sd_timestamp : option Z;
  sd_event : stream_event
}.

(** The loop over [snapshot_data.items()], left at the first SKU that is
    tracked and off by more than five.  The ledger is written before the
    incident is built, and building it reads [stream_data['timestamp']]. *)
Fixpoint scan_snapshot (ts : option Z) (items : list (string * Z))
    (inventory_levels : gmap string Z)
    : gmap string Z * option (option incident) :=
  match items with
  | [] => (inventory_levels, Some None)
  | (s, actual_count) :: rest =>
      match inventory_levels !! s with
      | Some expected =>
          if 5 <? Z.abs (expected - actual_count) then
            (<[s := actual_count]> inventory_levels,
             t ← ts;
             Some (Some {| inc_timestamp := t; event_id := "E007";
                           inc_data := InventoryDiscrepancy s expected actual_count |}))
          else scan_snapshot ts rest inventory_levels
      | None => scan_snapshot ts rest inventory_levels
      end
  end.

(** The new ledger, and the returned incident ([Some None] is the Python
    [None], [None] a raised [KeyError]). *)
Definition detect_inventory_discrepancy (stream : stream_data)
    (inventory_levels : gmap string Z)
    : gmap string Z * option (option incident) :=
  match sd_event stream with
  | POS_Transactions pos_data =>
      match sku pos_data with
      | Some s =>
          if truthy (Some s) then
            match inventory_levels !! s with
            | Some q => (<[s := q - 1]> inventory_levels, Some None)
            | None => (inventory_levels, Some None)
            end
          else (inventory_levels, Some None)
      | None => (inventory_levels, Some None)
      end
  | Current_inventory_data snapshot_data =>
      scan_snapshot (sd_timestamp stream) snapshot_data inventory_levels
  | other_dataset _ => (inventory_levels, Some None)
  end.




End Streaming.

(** ** An instance to run the model

    Exact arithmetic, and a reader of unsigned decimal integers: the model
    of a run on numbers that double arithmetic handles without rounding. *)

Definition exact_float_of_string (s : string) : option Q :=
  (λ d, inject_Z (Z.of_nat (Nat.of_uint d))) <$> NilZero.uint_of_string s.

Definition exact_arith : FloatArith :=
  {| float_of_string := exact_float_of_string;
     fmul := Qmult; fdiv := Qdiv; fsub := Qminus |}.

(** ** Example inputs *)

Definition record (t : Z) (station : string) (p : payload) : event :=
  {| timestamp := Some t; station_id := Some station; data := p |}.

(** Payloads: a POS scan, an RFID read in the scan area, a queue sample. *)
Definition pos_data (s customer : option string) : payload :=
  {| sku := s; customer_id := customer; weight_g := None; location := None;
     customer_count := None; average_dwell_time := None;
     predicted_product := None; accuracy := None |}.

Definition rfid_data (s : option string) : payload :=
  {| sku := s; customer_id := None; weight_g := None;
     location := Some "IN_SCAN_AREA";
     customer_count := None; average_dwell_time := None;
     predicted_product := None; accuracy := None |}.

Definition queue_data (count : Z) : payload :=
  {| sku := None; customer_id := None; weight_g := None; location := None;
     customer_count := Some count; average_dwell_time := None;
     predicted_product := None; accuracy := None |}.

(** A station silent for 200 seconds up to time 200, a snapshot taken at
    time 200 with ten units of "5678", and six sales of "5678" after it. *)
Definition tie_files : dataset :=
  {| pos_transactions :=
       replicate 6 (record 201 "SCC1" (pos_data (Some "5678") (Some "C1")));
     rfid_readings := [];
     queue_monitoring := [record 0 "SCC1" (queue_data 1);
                          record 200 "SCC1" (queue_data 1)];
     product_recognition := [];
     inventory_snapshots :=
       [{| snap_timestamp := Some 200; snap_data := [("5678", 10)] |}];
     products_list := [] |}.

Definition tie_log : list incident :=
  [{| inc_timestamp := 200; event_id := "E000";
      inc_data := UnexpectedSystemsCrash "SCC1" 200 |};
   {| inc_timestamp := 200; event_id := "E001";
      inc_data := InventoryDiscrepancy "5678" 10 4 |}].

(** The order of the detector calls in [process_events]. *)
Definition call_order (d : event_data) : nat :=
  match d with
  | ScannerAvoidance _ _ _ => 0
  | BarcodeSwitching _ _ _ _ => 1
  | WeightDiscrepancies _ _ _ _ _ => 2
  | LongQueueLength _ _ => 3
  | LongWaitTime _ _ => 4
  | UnexpectedSystemsCrash _ _ => 5
  | InventoryDiscrepancy _ _ _ => 6
  | SuccesOperation _ _ _ => 7
  end.

(** [x] comes from a detector called no later than the one of [y]. *)
Definition called_before (x y : incident) : Prop :=
  (call_order (inc_data x) ≤ call_order (inc_data y))%nat.

(** The order of the rules in the table of the specification. *)
Definition table_order (d : event_data) : nat :=
  match d with
  | ScannerAvoidance _ _ _ => 0
  | BarcodeSwitching _ _ _ _ => 1
  | WeightDiscrepancies _ _ _ _ _ => 2
  | LongQueueLength _ _ => 3
  | LongWaitTime _ _ => 4
  | InventoryDiscrepancy _ _ _ => 5
  | UnexpectedSystemsCrash _ _ => 6
  | SuccesOperation _ _ _ => 7
  end.

(** ** Inputs on which the batch run completes *)

Definition has_timestamp (x : event) : Prop := is_Some (timestamp x).
Definition has_station (x : event) : Prop := is_Some (station_id x).

(** Every record of the four event streams has a timestamp; every POS,
    RFID and queue record has a station, and so has every recognition of
    accuracy above one half; the first snapshot, if any, has a timestamp. *)
Definition complete_records (files : dataset) : Prop :=
  Forall has_timestamp (pos_transactions files)
  ∧ Forall has_timestamp (rfid_readings files)
  ∧ Forall has_timestamp (queue_monitoring files)
  ∧ Forall has_timestamp (product_recognition files)
  ∧ Forall has_station (pos_transactions files)
  ∧ Forall has_station (rfid_readings files)
  ∧ Forall has_station (queue_monitoring files)
  ∧ Forall (λ r, confident r = true → has_station r) (product_recognition files)
  ∧ match inventory_snapshots files with
    | [] => True
    | initial_snapshot :: _ => is_Some (snap_timestamp initial_snapshot)
    end.

(** One queue record read without its timestamp, after a sound one. *)
Definition malformed_files : dataset :=
  {| pos_transactions := []; rfid_readings := [];
     queue_monitoring :=
       [record 10 "SCC1" (queue_data 6);
        {| timestamp := None; station_id := Some "SCC1"; data := queue_data 2 |}];
     product_recognition := []; inventory_snapshots := []; products_list := [] |}.

(** The same input without the malformed record. *)
Definition remaining_files : dataset :=
  {| pos_transactions := []; rfid_readings := [];
     queue_monitoring := [record 10 "SCC1" (queue_data 6)];
     product_recognition := []; inventory_snapshots := []; products_list := [] |}.

(** Scenario A: a POS scan of "1234" at "SCC1". *)
Definition scan_1234 : event :=
  record 100 "SCC1" (pos_data (Some "1234") (Some "C1")).

(** An RFID read of another SKU at the same station, three seconds later. *)
Definition read_9999 : event := record 103 "SCC1" (rfid_data (Some "9999")).

(** ** Example feeds of the streaming program *)

(** A snapshot record of the feed, and a POS record of one sale. *)
Definition snapshot_record (t : Z) (items : list (string * Z))
    : Streaming.stream_data :=
  {| Streaming.sd_timestamp := Some t;
     Streaming.sd_event := Streaming.Current_inventory_data items |}.


(** A SKU of the snapshot is off by more than five from what the ledger
    tracks. *)
Definition diverges (inventory_levels : gmap string Z) (item : string * Z) : Prop :=
  ∃ expected, inventory_levels !! item.1 = Some expected
              ∧ 5 < Z.abs (expected - item.2).

(** The incident returned for a SKU, given the timestamp of the record. *)
Definition discrepancy (ts : option Z) (s : string) (expected actual : Z)
    : option (option incident) :=
  t ← ts; Some (Some {| inc_timestamp := t; event_id := "E007";
                        inc_data := InventoryDiscrepancy s expected actual |}).

(** Scenario C: the ledger tracks 100 units of "5678". *)
Definition ledger_100 : gmap string Z := {[ "5678" := 100 ]}.

(** A ledger of two SKUs, and a snapshot that is off for both. *)
Definition ledger_two : gmap string Z := {[ "1111" := 100; "2222" := 50 ]}.
Definition snapshot_two : list (string * Z) := [("1111", 90); ("2222", 10)].



(** ** Gaps in a chronological stream *)

(** The gaps of at least the threshold between consecutive times: the
    later time and the length of the gap. *)
Fixpoint gaps (threshold : Z) (times : list Z) : list (Z * Z) :=
  match times with
  | [] => []
  | a :: rest =>
      match rest with
      | [] => []
      | b :: _ => (if threshold <=? b - a then [(b, b - a)] else [])
                  ++ gaps threshold rest
      end
  end%list.

(** The station of a System Crash incident. *)
Definition crash_station (d : event_data) : option string :=
  match d with
  | UnexpectedSystemsCrash station _ => Some station
  | _ => None
  end.

(** Scenario D: two stations; "SCC2" is silent for 150 seconds. *)
Definition two_stations : list event :=
  [record 0 "SCC1" no_data; record 0 "SCC2" (queue_data 1);
   record 60 "SCC1" (rfid_data (Some "1234")); record 150 "SCC2" no_data;
   record 100 "SCC1" no_data; record 160 "SCC2" (queue_data 2)].

(** Records that carry no SKU: a POS scan and an RFID read. *)
Definition scan_without_sku : event := record 100 "SCC1" (pos_data None (Some "C1")).
Definition read_without_sku : event := record 103 "SCC1" (rfid_data None).

(** ** Further example inputs *)

(** Streams out of order, with two queue samples of one timestamp. *)
Definition unsorted_files : dataset :=
  {| pos_transactions := [record 30 "SCC1" (pos_data (Some "1234") None);
                          record 10 "SCC1" (pos_data (Some "5678") None)];
     rfid_readings := [];
     queue_monitoring := [record 20 "SCC2" (queue_data 7);
                          record 5 "SCC1" (queue_data 6);
                          record 20 "SCC1" (queue_data 9)];
     product_recognition := [];
     inventory_snapshots := []; products_list := [] |}.

Definition sorted_files : dataset :=
  {| pos_transactions := [record 10 "SCC1" (pos_data (Some "5678") None);
                          record 30 "SCC1" (pos_data (Some "1234") None)];
     rfid_readings := [];
     queue_monitoring := [record 5 "SCC1" (queue_data 6);
                          record 20 "SCC2" (queue_data 7);
                          record 20 "SCC1" (queue_data 9)];
     product_recognition := [];
     inventory_snapshots := []; products_list := [] |}.

(** An incident without its identifier. *)
Definition unnumbered (x : incident) : Z * event_data :=
  (inc_timestamp x, inc_data x).

(** The number of customers of a queue sample: [.get('customer_count', 0)]. *)
Definition count_of (queue : event) : Z := default 0 (customer_count (data queue)).

(** The dwell time of a queue sample: [.get('average_dwell_time', 0)]. *)
Definition dwell_of (queue : event) : Q := default 0%Q (average_dwell_time (data queue)).

Definition dwell_data (dwell : Q) : payload :=
  {| sku := None; customer_id := None; weight_g := None; location := None;
     customer_count := None; average_dwell_time := Some dwell;
     predicted_product := None; accuracy := None |}.

(** A short queue sampled without timestamp, between two long ones. *)
Definition queue_samples : list event :=
  [record 10 "SCC1" (queue_data 6);
   {| timestamp := None; station_id := Some "SCC2"; data := queue_data 5 |};
   record 30 "SCC3" (queue_data 9)].

#[global] Instance Qlt_decision (x y : Q) : Decision (x < y)%Q :=
  match Qlt_le_dec x y with
  | left Hlt => left Hlt
  | right Hle => right (Qle_not_lt _ _ Hle)
  end.

(** Queue samples with dwell times of 300, 300.5 and 420 seconds. *)
Definition dwell_samples : list event :=
  [record 10 "SCC1" (dwell_data 300%Q);
   record 20 "SCC2" (dwell_data (601 # 2));
   record 30 "SCC3" (dwell_data 420%Q)].




(** An RFID reading that makes [rfid_matches] succeed for a POS
    transaction: same station, within the window, same SKU (the location
    of the reading is not looked at). *)
Definition reads_same_sku (window : Z) (pos rfid : event) : bool :=
  match station_id pos, timestamp pos, timestamp rfid with
  | Some station, Some pos_time, Some rfid_time =>
      bool_decide (station_id rfid = Some station)
      && in_window window rfid_time pos_time
      && bool_decide (sku (data rfid) = sku (data pos))
  | _, _, _ => false
  end.

(** An RFID reading of "1234" outside the scan area. *)
Definition read_1234_elsewhere : event :=
  {| timestamp := Some 95; station_id := Some "SCC1";
     data := {| sku := Some "1234"; customer_id := None; weight_g := None;
                location := Some "SHELF"; customer_count := None;
                average_dwell_time := None; predicted_product := None;
                accuracy := None |} |}.



(** ** Other detectors of the streaming program
    ([Team01_sentinel/src/main.py])

    [main] decodes one record of the feed at a time, sets its ['datetime']
    from its ['timestamp'] when that key is present, and hands it to each
    detector.  [detect_scanner_avoidance] keeps, per station, the last RFID
    reading seen in the scan area (the global [last_rfid_reads], a
    dictionary whose missing entries read as a reading without time and
    without SKU); it is passed explicitly here. *)

Module Live.

Record stream_data := {
  dataset : option string;
  sd_timestamp : option Z;          (* 'timestamp', and 'datetime' parsed from it *)
  sd_station_id : option string;    (* event.get('station_id') *)
  sd_data : payload                 (* event.get('data', {}) *)
}.

Definition detect_scanner_avoidance (stream : stream_data)
    (last_rfid_reads : gmap string (option Z * option string))
    : gmap string (option Z * option string) * option incident :=
  match sd_station_id stream with
  | Some station =>
      if truthy (Some station) then
        if decide (dataset stream = Some "RFID_data") then
          if decide (location (sd_data stream) = Some "IN_SCAN_AREA") then
            (<[station := (sd_timestamp stream, sku (sd_data stream))]> last_rfid_reads,
             None)
          else (last_rfid_reads, None)
        else if decide (dataset stream = Some "POS_Transactions") then
          let pos_data := sd_data stream in
          let last_read := default (None, None) (last_rfid_reads !! station) in
          if truthy last_read.2 && bool_decide (last_read.2 ≠ sku pos_data) then
            match sd_timestamp stream, last_read.1 with
            | Some now, Some read_time =>
                if now - read_time <? 5 then
                  (last_rfid_reads,
                   Some {| inc_timestamp := now; event_id := "E001";
                           inc_data := ScannerAvoidance station (customer_id pos_data)
                                         last_read.2 |})
                else (last_rfid_reads, None)
            | _, _ => (last_rfid_reads, None)
            end
          else (last_rfid_reads, None)
        else (last_rfid_reads, None)
      else (last_rfid_reads, None)
  | None => (last_rfid_reads, None)
  end.

(** [last_rfid_reads] after the records of a feed, in arrival order. *)
Definition last_rfid_reads_after (feed : list stream_data)
    (last_rfid_reads : gmap string (option Z * option string))
    : gmap string (option Z * option string) :=
  foldl (λ reads stream, (detect_scanner_avoidance stream reads).1)
        last_rfid_reads feed.

(** [detect_long_queue]: the threshold is the constant 5; the incident is
    built from [stream_data['timestamp']] and [event_payload['station_id']],
    which raise when the key is missing. *)
Definition detect_long_queue (stream : stream_data) : option (option incident) :=
  if decide (dataset stream = Some "Queue_monitor") then
    let count := default 0 (customer_count (sd_data stream)) in
    if 5 <? count then
      t ← sd_timestamp stream;
      station ← sd_station_id stream;
      Some (Some {| inc_timestamp := t; event_id := "E005";
                    inc_data := LongQueueLength station count |})
    else Some None
  else Some None.

(** An RFID reading in the scan area of a station. *)
Definition scan_area_read (station : string) (stream : stream_data) : Prop :=
  sd_station_id stream = Some station
  ∧ dataset stream = Some "RFID_data"
  ∧ location (sd_data stream) = Some "IN_SCAN_AREA".

(** The record as the batch pipeline reads it from a file. *)
Definition as_event (stream : stream_data) : event :=
  {| timestamp := sd_timestamp stream; station_id := sd_station_id stream;
     data := sd_data stream |}.

End Live.

(** A feed: two readings in the scan area of "SCC1" and a sale in between
    at another station; then a sale at "SCC1". *)
Definition live_read (t : Z) (station : string) (s : option string)
    : Live.stream_data :=
  {| Live.dataset := Some "RFID_data"; Live.sd_timestamp := Some t;
     Live.sd_station_id := Some station; Live.sd_data := rfid_data s |}.

Definition live_sale (t : Z) (station : string) (s : option string)
    : Live.stream_data :=
  {| Live.dataset := Some "POS_Transactions"; Live.sd_timestamp := Some t;
     Live.sd_station_id := Some station; Live.sd_data := pos_data s (Some "C1") |}.

Definition live_queue (t : Z) (station : string) (count : Z) : Live.stream_data :=
  {| Live.dataset := Some "Queue_monitor"; Live.sd_timestamp := Some t;
     Live.sd_station_id := Some station; Live.sd_data := queue_data count |}.



(** * Properties *)

(** ** The stable sort *)

Section StableSort.
Context {A : Type}.
Implicit Types (p : Z * A) (l : list (Z * A)).

Lemma insert_by_key_Permutation p l : insert_by_key p l ≡ₚ p :: l.
Proof.
  induction l as [|q l IH]; simpl; [done|].
  destruct (p.1 <=? q.1); [done|].
  rewrite IH. apply perm_swap.
Qed.

Lemma stable_sort_Permutation l : stable_sort l ≡ₚ l.
Proof.
  induction l as [|p l IH]; simpl; [done|].
  by rewrite insert_by_key_Permutation, IH.
Qed.

Lemma insert_by_key_keys_sorted p l :
  Sorted Z.le l.*1 → Sorted Z.le (insert_by_key p l).*1.
Proof.
  induction l as [|q l IH]; simpl; intros Hs.
  - repeat constructor.
  - destruct (Z.leb_spec p.1 q.1) as [Hle|Hlt]; simpl.
    + constructor; [done|]. by constructor.
    + inversion Hs as [|? ? Hs' Hhd]; subst.
      constructor; [by apply IH|].
      destruct l as [|r l]; simpl in *.
      * constructor. lia.
      * destruct (p.1 <=? r.1); simpl; constructor; [lia|].
        by inversion Hhd.
Qed.

Lemma stable_sort_keys_sorted l : Sorted Z.le (stable_sort l).*1.
Proof.
  induction l as [|p l IH]; simpl; [constructor|].
  by apply insert_by_key_keys_sorted.
Qed.

(** Stability: the elements of one key keep their order. *)
Lemma insert_by_key_filter (t : Z) p l :
  Sorted Z.le l.*1 →
  filter (λ q, q.1 = t) (insert_by_key p l) = filter (λ q, q.1 = t) (p :: l).
Proof.
  induction l as [|q l IH]; simpl; intros Hs; [done|].
  destruct (Z.leb_spec p.1 q.1) as [Hle|Hlt]; [done|].
  inversion Hs as [|? ? Hs' _]; subst.
  rewrite filter_cons, IH by done.
  rewrite !filter_cons.
  destruct (decide (q.1 = t)), (decide (p.1 = t)); try done. lia.
Qed.

Lemma stable_sort_filter (t : Z) l :
  filter (λ q, q.1 = t) (stable_sort l) = filter (λ q, q.1 = t) l.
Proof.
  induction l as [|p l IH]; simpl; [done|].
  rewrite insert_by_key_filter by apply stable_sort_keys_sorted.
  by rewrite !filter_cons, IH.
Qed.

End StableSort.

(** Sorting a list decorated with its own keys. *)
Lemma decorated_keys {A} (key : A → Z) (k : list (Z * A)) :
  Forall (λ p, p.1 = key p.2) k → k.*1 = key <$> k.*2.
Proof.
  induction 1 as [|p k Hp _ IH]; [done|].
  rewrite !fmap_cons. by f_equal.
Qed.

Lemma stable_sort_decorated {A} (key : A → Z) (l : list A) :
  (stable_sort ((λ x, (key x, x)) <$> l)).*1
  = key <$> (stable_sort ((λ x, (key x, x)) <$> l)).*2.
Proof.
  apply decorated_keys. rewrite stable_sort_Permutation.
  apply Forall_fmap, Forall_true. done.
Qed.

Lemma stable_sort_decorated_filter {A} (key : A → Z) (t : Z) (l : list A) :
  filter (λ x, key x = t) (stable_sort ((λ x, (key x, x)) <$> l)).*2
  = filter (λ x, key x = t) l.
Proof.
  assert (∀ k : list (Z * A), Forall (λ p, p.1 = key p.2) k →
            filter (λ x, key x = t) k.*2 = (filter (λ q, q.1 = t) k).*2) as Hk.
  { intros k HF. induction HF as [|p k Hp _ IH]; [done|].
    rewrite fmap_cons, !filter_cons, IH, <- Hp.
    by destruct (decide (p.1 = t)). }
  rewrite Hk.
  - rewrite stable_sort_filter, <- Hk.
    + by rewrite <- list_fmap_compose, list_fmap_id.
    + apply Forall_fmap, Forall_true. done.
  - rewrite stable_sort_Permutation. apply Forall_fmap, Forall_true. done.
Qed.

(** ** Event identifiers *)

Lemma uint_of_string_zero_pad (k : nat) (s : string) (d : Decimal.uint) :
  NilEmpty.uint_of_string s = Some d →
  NilEmpty.uint_of_string (zero_pad k s) = Some (Nat.iter k Decimal.D0 d).
Proof.
  intros Hs. induction k as [|k IH]; simpl; [done|]. by rewrite IH.
Qed.

Lemma of_uint_leading_zeros (k : nat) (d : Decimal.uint) :
  Nat.of_uint (Nat.iter k Decimal.D0 d) = Nat.of_uint d.
Proof. induction k as [|k IH]; simpl; [done|]. exact IH. Qed.

Lemma to_uint_not_Nil (n : nat) : Nat.to_uint n ≠ Decimal.Nil.
Proof.
  intros Hn. pose proof (DecimalNat.Unsigned.of_to n) as Hof.
  rewrite Hn in Hof. simpl in Hof. subst n. discriminate Hn.
Qed.

Lemma event_id_number_format (idx : nat) :
  event_id_number (format_event_id idx) = Some idx.
Proof.
  unfold format_event_id, format_03d, event_id_number.
  pose proof (to_uint_not_Nil idx) as Hnil.
  set (k := (3 - _)%nat). clearbody k.
  assert (NilZero.string_of_uint (Nat.to_uint idx)
          = NilEmpty.string_of_uint (Nat.to_uint idx)) as ->.
  { by destruct (Nat.to_uint idx). }
  assert (NilZero.uint_of_string (zero_pad k (NilEmpty.string_of_uint (Nat.to_uint idx)))
          = NilEmpty.uint_of_string
              (zero_pad k (NilEmpty.string_of_uint (Nat.to_uint idx)))) as ->.
  { destruct k; simpl; [|done]. by destruct (Nat.to_uint idx). }
  rewrite (uint_of_string_zero_pad k _ _ (NilEmpty.usu _)). simpl.
  by rewrite of_uint_leading_zeros, DecimalNat.Unsigned.of_to.
Qed.

Lemma length_zero_pad (k : nat) (digits : string) :
  String.length (zero_pad k digits) = (k + String.length digits)%nat.
Proof. induction k as [|k IH]; simpl; [done|]. by rewrite IH. Qed.

Lemma length_format_event_id (idx : nat) :
  (4 ≤ String.length (format_event_id idx))%nat.
Proof.
  unfold format_event_id, format_03d. simpl. rewrite length_zero_pad. lia.
Qed.

Lemma format_event_id_inj (i j : nat) :
  format_event_id i = format_event_id j → i = j.
Proof.
  intros Hij. pose proof (event_id_number_format i) as Hi.
  rewrite Hij, event_id_number_format in Hi. by injection Hi.
Qed.

(** ** The end of the pipeline: sort and renumber *)

Lemma reassign_event_ids_timestamps (l : list incident) :
  inc_timestamp <$> reassign_event_ids l = inc_timestamp <$> l.
Proof.
  unfold reassign_event_ids. rewrite fmap_imap.
  rewrite (imap_ext _ (const inc_timestamp)) by done. apply imap_const.
Qed.

Lemma reassign_event_ids_data (l : list incident) :
  inc_data <$> reassign_event_ids l = inc_data <$> l.
Proof.
  unfold reassign_event_ids. rewrite fmap_imap.
  rewrite (imap_ext _ (const inc_data)) by done. apply imap_const.
Qed.

Lemma reassign_event_ids_lookup (l : list incident) (i : nat) (x : incident) :
  reassign_event_ids l !! i = Some x →
  event_id x = format_event_id i ∧
  ∃ y, l !! i = Some y ∧ inc_timestamp x = inc_timestamp y ∧ inc_data x = inc_data y.
Proof.
  unfold reassign_event_ids. rewrite list_lookup_imap.
  destruct (l !! i) as [y|]; simpl; [|done].
  intros [= <-]. simpl. eauto.
Qed.

Lemma finalize_sorted (l : list incident) :
  Sorted Z.le (inc_timestamp <$> finalize l).
Proof.
  unfold finalize. rewrite reassign_event_ids_timestamps.
  rewrite <- stable_sort_decorated. apply stable_sort_keys_sorted.
Qed.

Lemma finalize_event_id (l : list incident) (i : nat) (x : incident) :
  finalize l !! i = Some x → event_id x = format_event_id i.
Proof. intros Hx. by apply reassign_event_ids_lookup in Hx as [? _]. Qed.

(** The incidents of one timestamp, identifiers aside, before and after. *)
Lemma finalize_filter (t : Z) (l : list incident) :
  inc_data <$> filter (λ x, inc_timestamp x = t) (finalize l)
  = inc_data <$> filter (λ x, inc_timestamp x = t) l.
Proof.
  unfold finalize.
  set (s := (stable_sort _).*2).
  assert (∀ k : list incident, ∀ n : nat,
            inc_data <$> filter (λ x, inc_timestamp x = t)
              (imap (λ idx event, {| inc_timestamp := inc_timestamp event;
                                     event_id := format_event_id (n + idx);
                                     inc_data := inc_data event |}) k)
            = inc_data <$> filter (λ x, inc_timestamp x = t) k) as Hk.
  { induction k as [|y k IH]; intros n; [done|].
    rewrite imap_cons, !filter_cons. simpl.
    rewrite (imap_ext _ (λ idx event, {| inc_timestamp := inc_timestamp event;
                                          event_id := format_event_id (S n + idx);
                                          inc_data := inc_data event |}) k).
    - destruct (decide (inc_timestamp y = t)); rewrite ?fmap_cons, (IH (S n)); done.
    - intros i x _. simpl. do 2 f_equal. lia. }
  etrans; [exact (Hk s 0%nat)|].
  unfold s. by rewrite stable_sort_decorated_filter.
Qed.

(** ** The incident log of the batch pipeline *)

(** C2. The log produced by [process_events] is sorted by ascending
    timestamp, and the incident at (zero-based) position [i] carries the
    identifier made of the letter E and [i] in decimal, padded with zeros to
    at least three digits; read back as a number the identifier is the
    position, so the identifiers are dense, start at zero and increase
    strictly along the log. *)
Theorem process_events_sorted_and_numbered `{FloatArith}
    (files : dataset) (log : list incident) :
  process_events files = Some log →
  Sorted Z.le (inc_timestamp <$> log) ∧
  ∀ (i : nat) (x : incident), log !! i = Some x →
    event_id x = format_event_id i
    ∧ (4 ≤ String.length (event_id x))%nat
    ∧ event_id_number (event_id x) = Some i.
Proof.
  unfold process_events. intros Hlog. simplify_option_eq.
  split; [apply finalize_sorted|].
  intros i x Hx. apply finalize_event_id in Hx.
  rewrite Hx. auto using event_id_number_format, length_format_event_id.
Qed.

Lemma process_events_sorted_and_numbered_witness :
  process_events (H := exact_arith) tie_files = Some tie_log ∧
  Sorted Z.le (inc_timestamp <$> tie_log) ∧
  ∀ (i : nat) (x : incident), tie_log !! i = Some x →
    event_id x = format_event_id i
    ∧ (4 ≤ String.length (event_id x))%nat
    ∧ event_id_number (event_id x) = Some i.
Proof.
  split; [vm_compute; reflexivity|].
  apply (process_events_sorted_and_numbered (H := exact_arith) tie_files).
  vm_compute; reflexivity.
Defined.

(** ** What each detector emits *)

Lemma number_data (l : list emission) : inc_data <$> number l = l.*2.
Proof.
  unfold number. rewrite fmap_imap.
  rewrite (imap_ext _ (const snd)) by done. apply imap_const.
Qed.

Lemma number_timestamps (l : list emission) : inc_timestamp <$> number l = l.*1.
Proof.
  unfold number. rewrite fmap_imap.
  rewrite (imap_ext _ (const fst)) by done. apply imap_const.
Qed.


Lemma number_Forall (Q : event_data → Prop) (l : list emission) :
  Forall (λ e, Q e.2) l → Forall (λ x, Q (inc_data x)) (number l).
Proof.
  intros Hl. apply (Forall_fmap inc_data Q). rewrite number_data.
  by apply Forall_fmap.
Qed.

Lemma mapM_concat_Forall {A B} (f : A → option (list B)) (P : B → Prop)
    (l : list A) (k : list (list B)) :
  (∀ x y, f x = Some y → Forall P y) →
  mapM f l = Some k → Forall P (concat k).
Proof.
  intros Hf Hm. apply mapM_Some_1 in Hm.
  induction Hm as [|x y l k Hxy _ IH]; simpl; [constructor|].
  apply Forall_app. eauto.
Qed.

Section Kinds.
Context `{FloatArith}.

(** Reduces a goal on the incidents of a detector built from [mapM] to
    the emissions of the body of its loop. *)
Local Ltac by_loop_body :=
  intros Hd; simplify_option_eq;
  apply (number_Forall (λ d, call_order d = _));
  eapply mapM_concat_Forall; [|eassumption];
  let Hb := fresh "Hb" in intros ? ? Hb.

Lemma detect_scanner_avoidance_kind pos rfid w out :
  detect_scanner_avoidance pos rfid w = Some out →
  Forall (λ x, call_order (inc_data x) = 0%nat) out.
Proof.
  unfold detect_scanner_avoidance. by_loop_body.
  unfold scanner_avoidance_of_pos in Hb. simplify_option_eq.
  apply Forall_fmap, Forall_true. done.
Qed.

Lemma detect_barcode_switching_kind pos recog w out :
  detect_barcode_switching pos recog w = Some out →
  Forall (λ x, call_order (inc_data x) = 1%nat) out.
Proof.
  unfold detect_barcode_switching. by_loop_body.
  unfold barcode_switching_of_pos in Hb. simplify_option_eq.
  case_match; repeat constructor.
Qed.

Lemma detect_weight_discrepancies_kind pos products tol out :
  detect_weight_discrepancies pos products tol = Some out →
  Forall (λ x, call_order (inc_data x) = 2%nat) out.
Proof.
  unfold detect_weight_discrepancies. by_loop_body.
  unfold weight_discrepancy_of_pos in Hb.
  repeat (simplify_option_eq || case_match); repeat constructor.
Qed.

Lemma detect_long_queues_kind queue threshold out :
  detect_long_queues queue threshold = Some out →
  Forall (λ x, call_order (inc_data x) = 3%nat) out.
Proof.
  unfold detect_long_queues. by_loop_body.
  unfold long_queue_of in Hb.
  repeat (simplify_option_eq || case_match); repeat constructor.
Qed.

Lemma detect_long_wait_times_kind queue threshold out :
  detect_long_wait_times queue threshold = Some out →
  Forall (λ x, call_order (inc_data x) = 4%nat) out.
Proof.
  unfold detect_long_wait_times. by_loop_body.
  unfold long_wait_of in Hb.
  repeat (simplify_option_eq || case_match); repeat constructor.
Qed.

Lemma detect_system_crashes_kind all_events threshold out :
  detect_system_crashes all_events threshold = Some out →
  Forall (λ x, call_order (inc_data x) = 5%nat) out.
Proof.
  unfold detect_system_crashes. by_loop_body.
  unfold crashes_of_station in Hb. simplify_option_eq.
  eapply mapM_concat_Forall; [|eassumption].
  intros i y Hi. unfold crash_at in Hi. simplify_option_eq.
  case_match; repeat constructor.
Qed.

Lemma detect_inventory_discrepancies_kind snapshots pos threshold out :
  detect_inventory_discrepancies snapshots pos threshold = Some out →
  Forall (λ x, call_order (inc_data x) = 6%nat) out.
Proof.
  unfold detect_inventory_discrepancies. intros Hd.
  destruct snapshots as [|initial ?]; simplify_option_eq; [constructor|].
  apply (number_Forall (λ d, call_order d = _)), Forall_concat, Forall_fmap, Forall_true.
  intros [s q]. unfold inventory_discrepancy_of. simpl.
  repeat case_match; repeat constructor.
Qed.

Lemma detect_success_operations_kind pos rfid w out :
  detect_success_operations pos rfid w = Some out →
  Forall (λ x, call_order (inc_data x) = 7%nat) out.
Proof.
  unfold detect_success_operations. by_loop_body.
  unfold success_operation_of_pos in Hb. simplify_option_eq.
  case_match; repeat constructor.
Qed.

End Kinds.

(** ** Ties in the log *)

Lemma called_before_app (k k' : nat) (l1 l2 : list incident) :
  (k ≤ k')%nat →
  Forall (λ x, call_order (inc_data x) = k) l1 →
  Forall (λ x, (k' ≤ call_order (inc_data x))%nat) l2 →
  StronglySorted called_before l2 →
  StronglySorted called_before (l1 ++ l2)
  ∧ Forall (λ x, (k ≤ call_order (inc_data x))%nat) (l1 ++ l2).
Proof.
  intros Hk H1 H2 Hs. rewrite !Forall_forall in *. split.
  - apply StronglySorted_app_2; [| |done].
    + intros x y Hx Hy. unfold called_before.
      specialize (H1 x Hx). specialize (H2 y Hy). lia.
    + clear H2 Hs. induction l1 as [|x l1 IH]; constructor.
      * apply IH. intros y Hy. apply H1. by right.
      * apply Forall_forall. intros y Hy. unfold called_before.
        rewrite (H1 x), (H1 y); [done|by right|by left].
  - intros x [Hx|Hx]%elem_of_app.
    + by rewrite (H1 x Hx).
    + specialize (H2 x Hx). lia.
Qed.

Lemma StronglySorted_filter {A} (R : relation A) (P : A → Prop)
    `{∀ x, Decision (P x)} (l : list A) :
  StronglySorted R l → StronglySorted R (filter P l).
Proof.
  induction 1 as [|x l _ IH Hx]; [constructor|].
  rewrite filter_cons. destruct (decide (P x)); [|done].
  constructor; [done|].
  apply Forall_forall. intros y [_ Hy]%list_elem_of_filter.
  rewrite Forall_forall in Hx. auto.
Qed.

Lemma detect_all_called_before `{FloatArith} (d : dataset)
    (detected : list (list incident)) :
  detect_all d = Some detected →
  StronglySorted called_before (concat detected).
Proof.
  unfold detect_all. intros Hd. simplify_option_eq.
  repeat match goal with
         | Hk : _ = Some _ |- _ =>
             first [ apply detect_scanner_avoidance_kind in Hk
                   | apply detect_barcode_switching_kind in Hk
                   | apply detect_weight_discrepancies_kind in Hk
                   | apply detect_long_queues_kind in Hk
                   | apply detect_long_wait_times_kind in Hk
                   | apply detect_system_crashes_kind in Hk
                   | apply detect_inventory_discrepancies_kind in Hk
                   | apply detect_success_operations_kind in Hk ]
         end.
  simpl.
  repeat match goal with
         | Hk : Forall (λ x, call_order (inc_data x) = ?k) ?l
           |- StronglySorted called_before (?l ++ _) =>
             refine (proj1 (called_before_app k (S k) l _ _ Hk _ _)); [lia| |]
         | Hk : Forall (λ x, call_order (inc_data x) = ?k) ?l
           |- Forall _ (?l ++ _) =>
             refine (proj2 (called_before_app k (S k) l _ _ Hk _ _)); [lia| |]
         end; constructor.
Qed.

(** Two incidents of one timestamp keep, in the sorted list, the order
    they have in the list that was sorted. *)
Lemma tie_order (l k : list incident) :
  (∀ t, inc_data <$> filter (λ x, inc_timestamp x = t) k
        = inc_data <$> filter (λ x, inc_timestamp x = t) l) →
  StronglySorted called_before l →
  ∀ (i j : nat) (a b : incident),
    (i < j)%nat → k !! i = Some a → k !! j = Some b →
    inc_timestamp a = inc_timestamp b → called_before a b.
Proof.
  intros Heq Hl i j a b Hij Ha Hb Hab.
  apply (StronglySorted_filter _ (λ x, inc_timestamp x = inc_timestamp b)) in Hl.
  apply (StronglySorted_fmap inc_data _
           (λ d e, (call_order d ≤ call_order e)%nat)) in Hl; [|done].
  rewrite <- Heq in Hl.
  rewrite <- (take_drop_middle k i a Ha), filter_app, filter_cons in Hl.
  destruct (decide (inc_timestamp a = inc_timestamp b)); [|done].
  rewrite fmap_app, fmap_cons in Hl.
  apply StronglySorted_app_1_r, StronglySorted_cons in Hl as [Hl _].
  rewrite Forall_forall in Hl. apply Hl.
  apply list_elem_of_fmap. exists b. split; [done|].
  apply list_elem_of_filter. split; [done|].
  apply list_elem_of_lookup. exists (j - S i)%nat.
  rewrite lookup_drop. rewrite <- Hb. f_equal. lia.
Qed.

(** C3, as the code has it.  Incidents of equal timestamp stand in the log
    in the order of the detector calls of [process_events] (Scanner
    Avoidance, Barcode Switching, Weight Discrepancy, Long Queue, Long
    Wait, System Crash, Inventory Discrepancy, Success Operation), and
    within one detector in the order of emission: for each timestamp the
    incidents of the log, identifiers aside, are those of the detectors'
    lists joined in call order. *)
Theorem process_events_ties_in_call_order `{FloatArith}
    (files : dataset) (log : list incident) :
  process_events files = Some log →
  ∃ (d : dataset) (detected : list (list incident)),
    load_all_data files = Some d ∧ detect_all d = Some detected ∧
    (∀ t, inc_data <$> filter (λ x, inc_timestamp x = t) log
          = inc_data <$> filter (λ x, inc_timestamp x = t) (concat detected)) ∧
    (∀ (i j : nat) (a b : incident),
       (i < j)%nat → log !! i = Some a → log !! j = Some b →
       inc_timestamp a = inc_timestamp b →
       (call_order (inc_data a) ≤ call_order (inc_data b))%nat).
Proof.
  unfold process_events. intros Hlog. simplify_option_eq.
  eexists _, _. split_and!; [done|done|..].
  - intros t. apply finalize_filter.
  - eapply tie_order; [intros t; apply finalize_filter|].
    by eapply detect_all_called_before.
Qed.

Lemma process_events_ties_in_call_order_witness :
  ∃ (d : dataset) (detected : list (list incident)),
    load_all_data tie_files = Some d ∧
    detect_all (H := exact_arith) d = Some detected ∧
    (∀ t, inc_data <$> filter (λ x, inc_timestamp x = t) tie_log
          = inc_data <$> filter (λ x, inc_timestamp x = t) (concat detected)) ∧
    (∀ (i j : nat) (a b : incident),
       (i < j)%nat → tie_log !! i = Some a → tie_log !! j = Some b →
       inc_timestamp a = inc_timestamp b →
       (call_order (inc_data a) ≤ call_order (inc_data b))%nat).
Proof.
  apply (process_events_ties_in_call_order (H := exact_arith) tie_files).
  vm_compute; reflexivity.
Defined.

(** The claim C3 with the order of the table fails: on [tie_files] the
    System Crash incident precedes the Inventory Discrepancy incident of
    the same timestamp, and the table lists them the other way round. *)
Lemma table_order_counterexample :
  process_events (H := exact_arith) tie_files = Some tie_log ∧
  ∃ a b : incident,
    tie_log !! 0%nat = Some a ∧ tie_log !! 1%nat = Some b ∧
    inc_timestamp a = inc_timestamp b ∧
    (table_order (inc_data b) < table_order (inc_data a))%nat.
Proof.
  split; [vm_compute; reflexivity|].
  eexists _, _. split_and!; [reflexivity|reflexivity|reflexivity|].
  simpl. lia.
Qed.

(** ** When the batch run completes *)

Lemma sort_by_is_Some {A} (key : A → option Z) (l : list A) :
  is_Some (sort_by key l) ↔ Forall (λ x, is_Some (key x)) l.
Proof.
  unfold sort_by. split.
  - intros [l' Hl]. simplify_option_eq.
    assert (is_Some (mapM (with_key key) l)) as Hm by eauto.
    apply mapM_is_Some_1 in Hm. eapply Forall_impl; [exact Hm|].
    intros x [p Hp]. unfold with_key in Hp. simpl in Hp. simplify_option_eq. eauto.
  - intros Hl.
    destruct (mapM_is_Some_2 (with_key key) l) as [keyed ->]; [|by eexists].
    eapply Forall_impl; [exact Hl|].
    intros x [k Hk]. unfold with_key. simpl. rewrite Hk. by eexists.
Qed.

Lemma sort_by_Permutation {A} (key : A → option Z) (l l' : list A) :
  sort_by key l = Some l' → l' ≡ₚ l.
Proof.
  unfold sort_by. intros Hl. simplify_option_eq.
  rewrite stable_sort_Permutation.
  erewrite (mapM_fmap_Some_inv (with_key key) snd); [done|eassumption|].
  intros x p Hp. unfold with_key in Hp. by simplify_option_eq.
Qed.

Lemma by_station_is_Some (l : list event) :
  is_Some (by_station l) ↔ Forall has_station l.
Proof.
  unfold by_station. rewrite mapM_is_Some. apply Forall_iff. intros x.
  unfold has_station. simpl. destruct (station_id x); simpl; split;
    intros [? ?]; by eauto.
Qed.

(** A filled dictionary holds the records of the list, each under its
    station. *)
Lemma by_station_Some (l : list event) (d : list (string * event)) :
  by_station l = Some d →
  d.*2 = l ∧ Forall (λ p, station_id p.2 = Some p.1) d.
Proof.
  unfold by_station. intros Hd. split.
  - eapply mapM_fmap_Some_inv; [eassumption|].
    intros x p Hp. by simplify_option_eq.
  - apply mapM_Some_1 in Hd. induction Hd as [|x p l d Hp _ IH]; constructor; [|done].
    by simplify_option_eq.
Qed.

Lemma station_get_subseteq (d : list (string * event)) (s : string) :
  station_get d s ⊆ d.*2.
Proof.
  unfold station_get. intros x (p & -> & Hp)%list_elem_of_fmap.
  apply list_elem_of_filter in Hp as [_ Hp].
  apply list_elem_of_fmap. eauto.
Qed.

Lemma Forall_station_get (P : event → Prop) (d : list (string * event)) (s : string) :
  Forall P d.*2 → Forall P (station_get d s).
Proof.
  rewrite !Forall_forall. intros Hd x Hx. by apply Hd, (station_get_subseteq d s).
Qed.

Section Totality.
Context `{FloatArith}.

Lemma rfid_skus_in_window_is_Some w t rfids acc :
  Forall has_timestamp rfids → is_Some (rfid_skus_in_window w t rfids acc).
Proof.
  intros Hr. revert acc. induction Hr as [|x l [tx Hx] _ IH]; intros acc; simpl.
  - by eexists.
  - rewrite Hx. simpl. apply IH.
Qed.

Lemma first_switch_is_Some w t scanned recogs :
  Forall has_timestamp recogs → is_Some (first_switch w t scanned recogs).
Proof.
  induction 1 as [|x l [tx Hx] _ IH]; simpl; [by eexists|].
  rewrite Hx. simpl. repeat case_match; by eauto.
Qed.

Lemma rfid_matches_is_Some w t pos_sku rfids :
  Forall has_timestamp rfids → is_Some (rfid_matches w t pos_sku rfids).
Proof.
  induction 1 as [|x l [tx Hx] _ IH]; simpl; [by eexists|].
  rewrite Hx. simpl. repeat case_match; by eauto.
Qed.

Lemma expected_after_is_Some t pos expected :
  is_Some (expected_after t pos expected) ↔ Forall has_timestamp pos.
Proof.
  revert expected. induction pos as [|x pos IH]; intros expected; simpl.
  - split; [constructor|by eexists].
  - rewrite Forall_cons. unfold has_timestamp at 1.
    destruct (timestamp x) as [tx|]; simpl.
    + rewrite IH. split; [by eauto|by intros [_ ?]].
    + split; [by intros [? ?]|by intros [[? ?] _]].
Qed.

Lemma crashes_of_station_is_Some thr (d : list (string * event)) (s : string) :
  Forall has_timestamp d.*2 → is_Some (crashes_of_station thr d s).
Proof.
  intros Hd. unfold crashes_of_station.
  apply (Forall_station_get _ d s) in Hd.
  destruct (proj2 (sort_by_is_Some timestamp _) Hd) as [sorted Hs].
  rewrite Hs. simpl.
  assert (Forall has_timestamp sorted) as Hts.
  { by rewrite (sort_by_Permutation _ _ _ Hs). }
  destruct (mapM_is_Some_2 (crash_at s thr sorted)
              (seq 0 (length sorted - 1))) as [emitted ->]; [|by eexists].
  apply Forall_forall. intros i [_ Hi]%elem_of_seq. simpl.
  unfold crash_at.
  destruct (lookup_lt_is_Some_2 sorted i) as [x Hx]; [lia|].
  destruct (lookup_lt_is_Some_2 sorted (S i)) as [y Hy]; [lia|].
  rewrite Hx, Hy. simpl.
  rewrite Forall_forall in Hts.
  destruct (Hts x) as [tx ->]; [by eapply list_elem_of_lookup_2|].
  destruct (Hts y) as [ty ->]; [by eapply list_elem_of_lookup_2|].
  simpl. by eexists.
Qed.

End Totality.

Lemma Forall_filter_weaken {A} (P Q : A → Prop) `{∀ x, Decision (Q x)} (l : list A) :
  Forall P l → Forall P (filter Q l).
Proof.
  rewrite !Forall_forall. intros Hl x [_ Hx]%list_elem_of_filter. auto.
Qed.

Section Completion.
Context `{FloatArith}.

(** The loops over the POS transactions complete when each transaction has
    its station and its timestamp and the inner loop completes. *)
Local Ltac complete_loop Hst Hts :=
  let x := fresh "x" in let Hx := fresh "Hx" in
  let s := fresh "s" in let t := fresh "t" in
  apply mapM_is_Some_2, Forall_forall; intros x Hx; simpl;
  rewrite Forall_forall in Hst; rewrite Forall_forall in Hts;
  destruct (Hst x Hx) as [s Hs]; destruct (Hts x Hx) as [t Ht].

Lemma detect_scanner_avoidance_completes pos rfid w :
  Forall has_timestamp pos → Forall has_timestamp rfid →
  Forall has_station pos → Forall has_station rfid →
  is_Some (detect_scanner_avoidance pos rfid w).
Proof.
  intros Htp Htr Hsp Hsr. unfold detect_scanner_avoidance.
  destruct (proj2 (by_station_is_Some (filter (λ r, in_scan_area r = true) rfid)))
    as [d Hd]; [by apply Forall_filter_weaken|].
  rewrite Hd. simpl. apply by_station_Some in Hd as [Hd _].
  assert (is_Some (mapM (scanner_avoidance_of_pos w d) pos)) as [e ->];
    [|by eexists].
  complete_loop Hsp Htp. unfold scanner_avoidance_of_pos. rewrite Hs, Ht. simpl.
  destruct (rfid_skus_in_window_is_Some w t (station_get d s) ∅) as [k ->];
    [|by eexists].
  apply Forall_station_get. rewrite Hd. by apply Forall_filter_weaken.
Qed.

Lemma detect_barcode_switching_completes pos recog w :
  Forall has_timestamp pos → Forall has_timestamp recog →
  Forall has_station pos → Forall (λ r, confident r = true → has_station r) recog →
  is_Some (detect_barcode_switching pos recog w).
Proof.
  intros Htp Htr Hsp Hsr. unfold detect_barcode_switching.
  destruct (proj2 (by_station_is_Some (filter (λ r, confident r = true) recog)))
    as [d Hd].
  { rewrite Forall_forall in *. intros r [Hc Hr]%list_elem_of_filter. auto. }
  rewrite Hd. simpl. apply by_station_Some in Hd as [Hd _].
  assert (is_Some (mapM (barcode_switching_of_pos w d) pos)) as [e ->];
    [|by eexists].
  complete_loop Hsp Htp. unfold barcode_switching_of_pos. rewrite Hs, Ht. simpl.
  destruct (first_switch_is_Some w t (sku (data x)) (station_get d s)) as [k ->];
    [|by eexists].
  apply Forall_station_get. rewrite Hd. by apply Forall_filter_weaken.
Qed.

Lemma detect_weight_discrepancies_completes pos products tol :
  Forall has_timestamp pos → Forall has_station pos →
  is_Some (detect_weight_discrepancies pos products tol).
Proof.
  intros Htp Hsp. unfold detect_weight_discrepancies.
  assert (is_Some (mapM (weight_discrepancy_of_pos tol (product_weights_of products))
                     pos)) as [e ->]; [|by eexists].
  complete_loop Hsp Htp. unfold weight_discrepancy_of_pos. rewrite Hs, Ht. simpl.
  repeat case_match; by eexists.
Qed.

Lemma detect_long_queues_completes queue threshold :
  Forall has_timestamp queue → Forall has_station queue →
  is_Some (detect_long_queues queue threshold).
Proof.
  intros Htq Hsq. unfold detect_long_queues.
  assert (is_Some (mapM (long_queue_of threshold) queue)) as [e ->]; [|by eexists].
  complete_loop Hsq Htq. unfold long_queue_of. rewrite Hs, Ht. simpl.
  case_match; by eexists.
Qed.

Lemma detect_long_wait_times_completes queue threshold :
  Forall has_timestamp queue → Forall has_station queue →
  is_Some (detect_long_wait_times queue threshold).
Proof.
  intros Htq Hsq. unfold detect_long_wait_times.
  assert (is_Some (mapM (long_wait_of threshold) queue)) as [e ->]; [|by eexists].
  complete_loop Hsq Htq. unfold long_wait_of. rewrite Hs, Ht. simpl.
  case_match; by eexists.
Qed.

Lemma station_events_of_subseteq (all_events : list event) :
  (station_events_of all_events).*2 ⊆ all_events.
Proof.
  unfold station_events_of. intros x (p & -> & Hp)%list_elem_of_fmap.
  apply list_elem_of_omap in Hp as (y & Hy & Hp).
  repeat case_match; by simplify_eq.
Qed.

Lemma detect_system_crashes_completes all_events threshold :
  Forall has_timestamp all_events →
  is_Some (detect_system_crashes all_events threshold).
Proof.
  intros Hts. unfold detect_system_crashes.
  assert (is_Some (mapM (crashes_of_station threshold (station_events_of all_events))
                     (insertion_order (station_events_of all_events).*1)))
    as [e ->]; [|by eexists].
  apply mapM_is_Some_2, Forall_forall. intros s _. simpl.
  apply crashes_of_station_is_Some.
  rewrite Forall_forall in *. intros x Hx. by apply Hts, station_events_of_subseteq.
Qed.

Lemma detect_inventory_discrepancies_completes snapshots pos threshold :
  Forall has_timestamp pos →
  match snapshots with
  | [] => True
  | initial_snapshot :: _ => is_Some (snap_timestamp initial_snapshot)
  end →
  is_Some (detect_inventory_discrepancies snapshots pos threshold).
Proof.
  intros Htp Hsn. unfold detect_inventory_discrepancies.
  destruct snapshots as [|initial ?]; [by eexists|].
  destruct Hsn as [t ->]. simpl.
  destruct (proj2 (expected_after_is_Some t pos (snap_data initial)) Htp) as [e ->].
  by eexists.
Qed.

Lemma detect_success_operations_completes pos rfid w :
  Forall has_timestamp pos → Forall has_timestamp rfid →
  Forall has_station pos → Forall has_station rfid →
  is_Some (detect_success_operations pos rfid w).
Proof.
  intros Htp Htr Hsp Hsr. unfold detect_success_operations.
  destruct (proj2 (by_station_is_Some rfid)) as [d Hd]; [done|].
  rewrite Hd. simpl. apply by_station_Some in Hd as [Hd _].
  assert (is_Some (mapM (success_operation_of_pos w d) pos)) as [e ->];
    [|by eexists].
  complete_loop Hsp Htp. unfold success_operation_of_pos. rewrite Hs, Ht. simpl.
  destruct (rfid_matches_is_Some w t (sku (data x)) (station_get d s)) as [k ->];
    [|by eexists].
  apply Forall_station_get. by rewrite Hd.
Qed.

End Completion.

Section Abortion.
Context `{FloatArith}.

Lemma mapM_loop_needs {A B} (f : A → option B) (P : A → Prop) (l : list A) :
  (∀ x, is_Some (f x) → P x) → is_Some (mapM f l) → Forall P l.
Proof.
  intros Hf Hl. apply mapM_is_Some_1 in Hl.
  eapply Forall_impl; [exact Hl|]. intros x Hx. by apply Hf.
Qed.

Lemma detect_scanner_avoidance_needs pos rfid w :
  is_Some (detect_scanner_avoidance pos rfid w) → Forall has_station pos.
Proof.
  unfold detect_scanner_avoidance. intros [out Hout]. simplify_option_eq.
  eapply mapM_loop_needs; [|by eexists].
  intros x [e He]. unfold scanner_avoidance_of_pos in He.
  unfold has_station. destruct (station_id x); [by eexists|done].
Qed.

Lemma detect_barcode_switching_needs pos recog w :
  is_Some (detect_barcode_switching pos recog w) →
  Forall (λ r, confident r = true → has_station r) recog.
Proof.
  unfold detect_barcode_switching. intros [out Hout]. simplify_option_eq.
  assert (Forall has_station (filter (λ r, confident r = true) recog)) as Hf.
  { apply by_station_is_Some. by eexists. }
  rewrite Forall_forall in *. intros r Hr Hc. apply Hf.
  by apply list_elem_of_filter.
Qed.

Lemma detect_long_queues_needs queue threshold :
  is_Some (detect_long_queues queue threshold) → Forall has_station queue.
Proof.
  unfold detect_long_queues. intros [out Hout]. simplify_option_eq.
  eapply mapM_loop_needs; [|by eexists].
  intros x [e He]. unfold long_queue_of in He.
  unfold has_station. destruct (station_id x); [by eexists|done].
Qed.

Lemma detect_inventory_discrepancies_needs snapshots pos threshold :
  is_Some (detect_inventory_discrepancies snapshots pos threshold) →
  match snapshots with
  | [] => True
  | initial_snapshot :: _ => is_Some (snap_timestamp initial_snapshot)
  end.
Proof.
  unfold detect_inventory_discrepancies. intros [out Hout].
  destruct snapshots as [|initial ?]; [done|].
  destruct (snap_timestamp initial); [by eexists|done].
Qed.

Lemma detect_success_operations_needs pos rfid w :
  is_Some (detect_success_operations pos rfid w) → Forall has_station rfid.
Proof.
  unfold detect_success_operations. intros [out Hout]. simplify_option_eq.
  apply by_station_is_Some. by eexists.
Qed.

Lemma load_all_data_is_Some (files : dataset) :
  is_Some (load_all_data files) ↔
  Forall has_timestamp (pos_transactions files)
  ∧ Forall has_timestamp (rfid_readings files)
  ∧ Forall has_timestamp (queue_monitoring files)
  ∧ Forall has_timestamp (product_recognition files).
Proof.
  unfold load_all_data. split.
  - intros [d Hd]. simplify_option_eq.
    split_and!; apply (sort_by_is_Some timestamp); by eexists.
  - intros (Hp & Hr & Hq & Hc).
    apply (sort_by_is_Some timestamp) in Hp as [? ->].
    apply (sort_by_is_Some timestamp) in Hr as [? ->].
    apply (sort_by_is_Some timestamp) in Hq as [? ->].
    apply (sort_by_is_Some timestamp) in Hc as [? ->].
    by eexists.
Qed.

(** Loading keeps the records of every stream. *)
Lemma load_all_data_Permutation (files d : dataset) :
  load_all_data files = Some d →
  pos_transactions d ≡ₚ pos_transactions files
  ∧ rfid_readings d ≡ₚ rfid_readings files
  ∧ queue_monitoring d ≡ₚ queue_monitoring files
  ∧ product_recognition d ≡ₚ product_recognition files
  ∧ inventory_snapshots d = inventory_snapshots files
  ∧ products_list d = products_list files.
Proof.
  unfold load_all_data. intros Hd. simplify_option_eq.
  split_and!; by eauto using sort_by_Permutation.
Qed.

Lemma complete_records_load (files d : dataset) :
  load_all_data files = Some d → complete_records files ↔ complete_records d.
Proof.
  intros (Hp & Hr & Hq & Hc & Hs & _)%load_all_data_Permutation.
  unfold complete_records. by rewrite Hp, Hr, Hq, Hc, Hs.
Qed.

Lemma detect_all_is_Some (d : dataset) :
  Forall has_timestamp (pos_transactions d) →
  Forall has_timestamp (rfid_readings d) →
  Forall has_timestamp (queue_monitoring d) →
  Forall has_timestamp (product_recognition d) →
  is_Some (detect_all d) ↔ complete_records d.
Proof.
  intros Htp Htr Htq Htc. unfold complete_records, detect_all. split.
  - intros [detected Hd]. simplify_option_eq.
    split_and!; try done.
    + eapply detect_scanner_avoidance_needs; by eexists.
    + eapply detect_success_operations_needs; by eexists.
    + eapply detect_long_queues_needs; by eexists.
    + eapply detect_barcode_switching_needs; by eexists.
    + eapply detect_inventory_discrepancies_needs; by eexists.
  - intros (_ & _ & _ & _ & Hsp & Hsr & Hsq & Hsc & Hsn).
    destruct (detect_scanner_avoidance_completes _ _ 10 Htp Htr Hsp Hsr) as [? ->].
    destruct (detect_barcode_switching_completes _ _ 5 Htp Htc Hsp Hsc) as [? ->].
    destruct (detect_weight_discrepancies_completes _ (products_list d) 20%Q Htp Hsp)
      as [? ->].
    destruct (detect_long_queues_completes _ 5 Htq Hsq) as [? ->].
    destruct (detect_long_wait_times_completes _ 300%Q Htq Hsq) as [? ->].
    simpl.
    destruct (detect_system_crashes_completes
                (pos_transactions d ++ rfid_readings d
                 ++ queue_monitoring d ++ product_recognition d)%list 120)
      as [? ->]; [by rewrite !Forall_app|].
    destruct (detect_inventory_discrepancies_completes _ _ 10%Q Htp Hsn) as [? ->].
    destruct (detect_success_operations_completes _ _ 10 Htp Htr Hsp Hsr) as [? ->].
    by eexists.
Qed.

End Abortion.

(** Which missing fields stop the batch run.  With every number of the
    records finite (the embedding has no infinity or NaN to convert), the
    run of [process_events] returns a log exactly when every record of the
    four event streams has a timestamp, every POS, RFID and queue record
    has a station identifier, every recognition of accuracy above one half
    has a station identifier, and the first inventory snapshot (if there is
    one) has a timestamp; a missing field elsewhere is never read. *)
Lemma process_events_completes_iff `{FloatArith} (files : dataset) :
  is_Some (process_events files) ↔ complete_records files.
Proof.
  unfold process_events. split.
  - intros [log Hlog]. simplify_option_eq.
    match goal with Hl : load_all_data files = Some ?d |- _ =>
      rewrite (complete_records_load files d Hl);
      pose proof (proj1 (load_all_data_is_Some files) (mk_is_Some _ _ Hl))
        as (Hp & Hr & Hq & Hc);
      apply load_all_data_Permutation in Hl as (Pp & Pr & Pq & Pc & _)
    end.
    rewrite <- Pp in Hp. rewrite <- Pr in Hr. rewrite <- Pq in Hq. rewrite <- Pc in Hc.
    apply detect_all_is_Some; [done..|]. by eexists.
  - intros Hc. pose proof Hc as (Hp & Hr & Hq & Hg & _).
    destruct (proj2 (load_all_data_is_Some files)) as [d Hd]; [done|].
    rewrite Hd. simpl.
    apply (complete_records_load files d Hd) in Hc.
    pose proof Hc as (Hp' & Hr' & Hq' & Hg' & _).
    destruct (proj2 (detect_all_is_Some d Hp' Hr' Hq' Hg') Hc) as [? ->].
    by eexists.
Qed.

(** C9 is what the program should do and the batch pipeline does not.
    One queue record without timestamp stops the whole run on the raised
    [KeyError] of [load_all_data], and no log is written; the claimed
    behaviour (skip the record, go on) would give the log of the
    remaining record, which holds one Long Queue incident.  The streaming
    program's loop catches the exception per record and goes on, and
    [detect_system_crashes] skips a record without station. *)
Lemma malformed_record_aborts :
  process_events (H := exact_arith) malformed_files = None ∧
  process_events (H := exact_arith) remaining_files
  = Some [{| inc_timestamp := 10; event_id := "E000";
             inc_data := LongQueueLength "SCC1" 6 |}].
Proof. split; vm_compute; reflexivity. Qed.

(** ** Scanner avoidance *)

Lemma station_get_by_station (l : list event) (d : list (string * event))
    (s : string) :
  by_station l = Some d →
  station_get d s = filter (λ x, station_id x = Some s) l.
Proof.
  unfold by_station, station_get. intros Hd. apply mapM_Some_1 in Hd.
  induction Hd as [|x p l d Hp _ IH]; [done|].
  destruct (station_id x) as [s'|] eqn:Hx; simpl in Hp; [|done].
  injection Hp as <-. rewrite !filter_cons. simpl. rewrite Hx.
  destruct (decide (s' = s)) as [->|Hne].
  - rewrite decide_True by done. by rewrite fmap_cons, IH.
  - rewrite decide_False by congruence. done.
Qed.





(** ** The inventory ledger of the streaming program *)

Section Ledger.
Import Streaming.
Implicit Types (levels : gmap string Z) (items : list (string * Z)).

Lemma scan_snapshot_quiet ts items levels :
  Forall (λ item, ¬ diverges levels item) items →
  scan_snapshot ts items levels = (levels, Some None).
Proof.
  induction 1 as [|[s actual] items Hs _ IH]; simpl; [done|].
  destruct (levels !! s) as [expected|] eqn:Hl; [|done].
  destruct (Z.ltb_spec 5 (Z.abs (expected - actual))); [|done].
  destruct Hs. by exists expected.
Qed.

Lemma scan_snapshot_first ts before after s expected actual levels :
  Forall (λ item, ¬ diverges levels item) before →
  levels !! s = Some expected → 5 < Z.abs (expected - actual) →
  scan_snapshot ts (before ++ (s, actual) :: after)%list levels
  = (<[s := actual]> levels, discrepancy ts s expected actual).
Proof.
  intros Hb Hl Hd. induction Hb as [|[s' a'] before Hs _ IH]; simpl.
  - rewrite Hl. by destruct (Z.ltb_spec 5 (Z.abs (expected - actual))); [|lia].
  - destruct (levels !! s') as [e'|] eqn:Hl'; [|done].
    destruct (Z.ltb_spec 5 (Z.abs (e' - a'))); [|done].
    destruct Hs. by exists e'.
Qed.

(** The items either all agree with the ledger, or split at the first
    one that diverges. *)
Lemma first_divergence levels items :
  Forall (λ item, ¬ diverges levels item) items
  ∨ ∃ before s actual after expected,
      items = (before ++ (s, actual) :: after)%list
      ∧ Forall (λ item, ¬ diverges levels item) before
      ∧ levels !! s = Some expected ∧ 5 < Z.abs (expected - actual).
Proof.
  induction items as [|[s actual] items IH]; [by left|].
  destruct (levels !! s) as [expected|] eqn:Hl.
  - destruct (Z.ltb_spec 5 (Z.abs (expected - actual))) as [Hd|Hd].
    + right. by exists [], s, actual, items, expected.
    + destruct IH as [IH|(before & s' & a' & after & e' & -> & Hb & Hl' & Hd')].
      * left. constructor; [|done]. intros (e & He & Hlt). simpl in *.
        rewrite Hl in He. simplify_eq. lia.
      * right. exists ((s, actual) :: before), s', a', after, e'.
        split_and!; try done. constructor; [|done].
        intros (e & He & Hlt). simpl in *. rewrite Hl in He. simplify_eq. lia.
  - destruct IH as [IH|(before & s' & a' & after & e' & -> & Hb & Hl' & Hd')].
    + left. constructor; [|done]. intros (e & He & _). simpl in *. congruence.
    + right. exists ((s, actual) :: before), s', a', after, e'.
      split_and!; try done. constructor; [|done].
      intros (e & He & _). simpl in *. congruence.
Qed.

End Ledger.

Section LedgerClaims.
Import Streaming.
Implicit Types (levels : gmap string Z) (items : list (string * Z)).

(** C4, as the code has it.  Processing an inventory snapshot overwrites
    a tracked quantity only when an incident fires, and then only for the
    SKU of the incident: either no SKU of the snapshot diverges, no
    incident is returned and the ledger is left as it was, or one incident
    is returned for a SKU of the snapshot that was off by more than five,
    and the ledger tracks the snapshot's quantity for that SKU thereafter
    (as in scenario C: 100 expected, 90 actual, 90 tracked afterwards). *)
Theorem snapshot_resyncs_on_trigger stream items levels levels' r :
  sd_event stream = Current_inventory_data items →
  detect_inventory_discrepancy stream levels = (levels', r) →
  (r = Some None ∧ levels' = levels
   ∧ Forall (λ item, ¬ diverges levels item) items)
  ∨ ∃ s expected actual,
      (s, actual) ∈ items ∧ levels !! s = Some expected
      ∧ 5 < Z.abs (expected - actual)
      ∧ r = discrepancy (sd_timestamp stream) s expected actual
      ∧ levels' = <[s := actual]> levels ∧ levels' !! s = Some actual.
Proof.
  intros Hev. unfold detect_inventory_discrepancy. rewrite Hev.
  destruct (first_divergence levels items)
    as [Hq|(before & s & actual & after & expected & -> & Hb & Hl & Hd)].
  - rewrite scan_snapshot_quiet by done. intros [= <- <-]. by left.
  - rewrite (scan_snapshot_first _ _ _ _ expected) by done.
    intros [= <- <-]. right. exists s, expected, actual.
    split_and!; try done.
    + apply elem_of_app. right. by left.
    + apply lookup_insert_eq.
Qed.

Lemma snapshot_resyncs_on_trigger_witness :
  detect_inventory_discrepancy (snapshot_record 500 [("5678", 90)]) ledger_100
  = (<["5678" := 90]> ledger_100, discrepancy (Some 500) "5678" 100 90)
  ∧ ((discrepancy (Some 500) "5678" 100 90 = Some None
      ∧ <["5678" := 90]> ledger_100 = ledger_100
      ∧ Forall (λ item, ¬ diverges ledger_100 item) [("5678", 90)])
     ∨ ∃ s expected actual,
         (s, actual) ∈ [("5678", 90)] ∧ ledger_100 !! s = Some expected
         ∧ 5 < Z.abs (expected - actual)
         ∧ discrepancy (Some 500) "5678" 100 90
           = discrepancy (Some 500) s expected actual
         ∧ <["5678" := 90]> ledger_100 = <[s := actual]> ledger_100
         ∧ <["5678" := 90]> ledger_100 !! s = Some actual).
Proof.
  split; [reflexivity|].
  apply (snapshot_resyncs_on_trigger
           (snapshot_record 500 [("5678", 90)]) [("5678", 90)] ledger_100);
    reflexivity.
Defined.

(** The claim C4 fails: a snapshot that reports 98 units where the ledger
    tracks 100 fires no incident and leaves the ledger at 100. *)
Lemma snapshot_within_tolerance_counterexample :
  (detect_inventory_discrepancy (snapshot_record 500 [("5678", 98)]) ledger_100).2
  = Some None
  ∧ (detect_inventory_discrepancy (snapshot_record 500 [("5678", 98)]) ledger_100).1
    !! "5678" = Some 100
  ∧ 100 ≠ 98.
Proof. split_and!; [reflexivity|reflexivity|lia]. Qed.

(** C10.  Processing one inventory snapshot returns at most one incident:
    none when no SKU of the snapshot diverges from the ledger, and
    otherwise the incident of the first SKU, in the order of the snapshot,
    that is tracked and off by more than five.  Only the entry of that SKU
    is rewritten; a later SKU of the same snapshot that diverges is not
    reported and still diverges afterwards. *)
Theorem snapshot_reports_first_divergence_only stream items levels :
  sd_event stream = Current_inventory_data items →
  (Forall (λ item, ¬ diverges levels item) items →
   detect_inventory_discrepancy stream levels = (levels, Some None))
  ∧ ∀ before s actual after expected,
      items = (before ++ (s, actual) :: after)%list →
      Forall (λ item, ¬ diverges levels item) before →
      levels !! s = Some expected → 5 < Z.abs (expected - actual) →
      detect_inventory_discrepancy stream levels
      = (<[s := actual]> levels, discrepancy (sd_timestamp stream) s expected actual)
      ∧ (∀ k, k ≠ s → <[s := actual]> levels !! k = levels !! k)
      ∧ ∀ item, item ∈ after → item.1 ≠ s → diverges levels item →
          diverges (<[s := actual]> levels) item.
Proof.
  intros Hev. unfold detect_inventory_discrepancy. rewrite Hev. split.
  - apply scan_snapshot_quiet.
  - intros before s actual after expected -> Hb Hl Hd. split_and!.
    + by apply scan_snapshot_first.
    + intros k Hk. by apply lookup_insert_ne.
    + intros item _ Hne (e & He & Hlt). exists e.
      by rewrite lookup_insert_ne.
Qed.

Lemma snapshot_reports_first_divergence_only_witness :
  detect_inventory_discrepancy (snapshot_record 500 snapshot_two) ledger_two
  = (<["1111" := 90]> ledger_two, discrepancy (Some 500) "1111" 100 90)
  ∧ (∀ k, k ≠ "1111" → <["1111" := 90]> ledger_two !! k = ledger_two !! k)
  ∧ ∀ item, item ∈ [("2222", 10)] → item.1 ≠ "1111" → diverges ledger_two item →
      diverges (<["1111" := 90]> ledger_two) item.
Proof.
  apply (proj2 (snapshot_reports_first_divergence_only
                  (snapshot_record 500 snapshot_two) snapshot_two ledger_two
                  eq_refl) [] "1111" 90 [("2222", 10)] 100);
    [reflexivity|constructor|reflexivity|simpl; lia].
Defined.

End LedgerClaims.

Section LedgerBound.
Import Streaming.
Implicit Types (levels : gmap string Z) (feed : list stream_data).









End LedgerBound.

(** ** System crashes *)

Lemma station_events_of_cons (x : event) (l : list event) :
  station_events_of (x :: l)
  = match station_id x with
    | Some s => if String.eqb s "" then station_events_of l
                else (s, x) :: station_events_of l
    | None => station_events_of l
    end.
Proof.
  unfold station_events_of. simpl.
  destruct (station_id x) as [s|]; [|done]. simpl. by destruct (String.eqb s "").
Qed.

Lemma station_get_station_events (all_events : list event) (s : string) :
  s ≠ "" →
  station_get (station_events_of all_events) s
  = filter (λ x, station_id x = Some s) all_events.
Proof.
  intros Hs. induction all_events as [|x l IH]; [done|].
  rewrite station_events_of_cons, filter_cons.
  destruct (station_id x) as [s'|] eqn:Hx.
  - destruct (String.eqb_spec s' "") as [->|Hne].
    + rewrite decide_False by congruence. exact IH.
    + unfold station_get in *. rewrite filter_cons. simpl.
      destruct (decide (s' = s)) as [->|Hss].
      * rewrite decide_True by done. by rewrite fmap_cons, IH.
      * rewrite decide_False by congruence. exact IH.
  - rewrite decide_False by done. exact IH.
Qed.

Lemma station_events_of_truthy (all_events : list event) (s : string) :
  s ∈ (station_events_of all_events).*1 → s ≠ "".
Proof.
  unfold station_events_of. intros (p & -> & Hp)%list_elem_of_fmap.
  apply list_elem_of_omap in Hp as (x & _ & Hp).
  destruct (station_id x) as [s'|]; [|done]. simpl in Hp.
  destruct (String.eqb_spec s' ""); simplify_eq/=. done.
Qed.

Lemma station_get_absent (d : list (string * event)) (s : string) :
  s ∉ d.*1 → station_get d s = [].
Proof.
  unfold station_get. intros Hs. induction d as [|p d IH]; [done|].
  rewrite fmap_cons, not_elem_of_cons in Hs. destruct Hs as [Hne Hs].
  rewrite filter_cons, decide_False by done. by apply IH.
Qed.

Lemma elem_of_insertion_order (keys : list string) (s : string) :
  s ∈ insertion_order keys ↔ s ∈ keys.
Proof.
  induction keys as [|k keys IH]; simpl; [done|].
  rewrite !elem_of_cons, list_elem_of_filter, IH. split.
  - intros [->|[_ Hs]]; [by left|by right].
  - intros [->|Hs]; [by left|].
    destruct (decide (s = k)) as [->|Hne]; [by left|by right].
Qed.

Lemma NoDup_insertion_order (keys : list string) : NoDup (insertion_order keys).
Proof.
  induction keys as [|k keys IH]; simpl; constructor.
  - rewrite list_elem_of_filter. by intros [Hne _].
  - by apply NoDup_filter.
Qed.

Lemma list_fmap_filter_comm {A B} (f : A → B) (P : B → Prop)
    `{∀ y, Decision (P y)} (l : list A) :
  f <$> filter (λ x, P (f x)) l = filter P (f <$> l).
Proof.
  induction l as [|x l IH]; [done|].
  rewrite fmap_cons, !filter_cons. case_decide; by rewrite ?fmap_cons, IH.
Qed.

Lemma number_filter (Q : event_data → Prop) `{∀ d, Decision (Q d)}
    (l : list emission) :
  (λ x, (inc_timestamp x, inc_data x)) <$> filter (λ x, Q (inc_data x)) (number l)
  = filter (λ e, Q e.2) l.
Proof.
  etrans; [exact (list_fmap_filter_comm (λ x, (inc_timestamp x, inc_data x))
                     (λ e, Q e.2) (number l))|].
  f_equal. unfold number. rewrite fmap_imap.
  rewrite (imap_ext _ (const id)); [by rewrite imap_const, list_fmap_id|].
  by intros i [t d] _.
Qed.

(** The emissions of one key among those of a loop over distinct keys. *)
Lemma filter_concat_keys (f : string → option (list emission))
    (keys : list string) (emitted : list (list emission)) (s : string) :
  NoDup keys → mapM f keys = Some emitted →
  (∀ k e, f k = Some e → Forall (λ em, crash_station em.2 = Some k) e) →
  filter (λ em, crash_station em.2 = Some s) (concat emitted)
  = if decide (s ∈ keys) then default [] (f s) else [].
Proof.
  intros Hnd Hm Hf. apply mapM_Some_1 in Hm.
  induction Hm as [|k e keys emitted Hk _ IH]; [done|].
  apply NoDup_cons in Hnd as [Hnk Hnd].
  rewrite concat_cons, filter_app, (IH Hnd). specialize (Hf k e Hk).
  destruct (decide (s = k)) as [->|Hne].
  - rewrite (decide_True (P := k ∈ k :: keys)) by (by left).
    rewrite (decide_False (P := k ∈ keys)) by done.
    rewrite Hk, app_nil_r. simpl.
    clear -Hf. induction Hf as [|em e Hem _ IH]; [done|].
    by rewrite filter_cons, decide_True, IH.
  - assert (filter (λ em, crash_station em.2 = Some s) e = []) as ->.
    { clear -Hf Hne. induction Hf as [|em e Hem _ IH]; [done|].
      rewrite filter_cons, decide_False; [done|congruence]. }
    destruct (decide (s ∈ keys)) as [Hin|Hnin].
    + rewrite decide_True by (by right). done.
    + rewrite decide_False; [done|]. rewrite not_elem_of_cons. done.
Qed.

Lemma mapM_fmap_comp {A B C} (f : B → option C) (g : A → B) (l : list A) :
  mapM f (g <$> l) = mapM (λ x, f (g x)) l.
Proof.
  induction l as [|x l IH]; [done|].
  rewrite fmap_cons. simpl. by rewrite <- IH.
Qed.

(** The loop over the indices follows the consecutive pairs of the list. *)
Lemma crash_loop (s : string) (threshold : Z) (sl : list event) (times : list Z) :
  Forall2 (λ x t, timestamp x = Some t) sl times →
  ∃ emitted,
    mapM (crash_at s threshold sl) (seq 0 (length sl - 1)) = Some emitted
    ∧ concat emitted
      = (λ p, (p.1, UnexpectedSystemsCrash s p.2)) <$> gaps threshold times.
Proof.
  induction 1 as [|x t sl times Hx Hsl IH]; [by exists []|].
  destruct Hsl as [|y t' sl times Hy Hsl]; [by exists []|].
  destruct IH as (emitted & Hm & Hc).
  replace (length (x :: y :: sl) - 1)%nat with (S (length (y :: sl) - 1))
    by (simpl; lia).
  change (seq 0 (S (length (y :: sl) - 1))) with (0%nat :: seq 1 (length (y :: sl) - 1)).
  exists ((if threshold <=? t' - t
           then [(t', UnexpectedSystemsCrash s (t' - t))] else []) :: emitted).
  split.
  - rewrite <- fmap_S_seq. simpl mapM at 1.
    rewrite mapM_fmap_comp.
    rewrite (mapM_ext _ (crash_at s threshold (y :: sl))) by done.
    change (length sl - 0)%nat with (length (y :: sl) - 1)%nat.
    rewrite Hm. unfold crash_at at 1. simpl. rewrite Hx, Hy. done.
  - rewrite concat_cons, Hc. simpl gaps.
    rewrite fmap_app. f_equal. by destruct (threshold <=? t' - t).
Qed.

(** What [sort_by timestamp] returns: the records in the order of their
    times, and these times are the sorted times of the input. *)
Lemma sort_by_timestamp_times (l sl : list event) :
  sort_by timestamp l = Some sl →
  ∃ raw times : list Z,
    Forall2 (λ x t, timestamp x = Some t) l raw
    ∧ Forall2 (λ x t, timestamp x = Some t) sl times
    ∧ Sorted Z.le times ∧ times ≡ₚ raw.
Proof.
  unfold sort_by. intros Hs. simplify_option_eq.
  match goal with Hm : mapM _ l = Some ?k |- _ => rename Hm into Hkeyed; set (keyed := k) in * end.
  assert (Forall (λ p : Z * event, timestamp p.2 = Some p.1) keyed) as Hown.
  { apply mapM_Some_1 in Hkeyed. clear -Hkeyed.
    induction Hkeyed as [|x p l k Hp _ IH]; constructor; [|done].
    unfold with_key in Hp. by simplify_option_eq. }
  assert (∀ k : list (Z * event), Forall (λ p, timestamp p.2 = Some p.1) k →
            Forall2 (λ x t, timestamp x = Some t) k.*2 k.*1) as Hdiag.
  { induction 1; constructor; done. }
  exists keyed.*1, (stable_sort keyed).*1. split_and!.
  - erewrite <- (mapM_fmap_Some_inv (with_key timestamp) snd l keyed);
      [by apply Hdiag|done|].
    intros x p Hp. unfold with_key in Hp. by simplify_option_eq.
  - apply Hdiag. by rewrite stable_sort_Permutation.
  - apply stable_sort_keys_sorted.
  - by rewrite stable_sort_Permutation.
Qed.

Lemma crashes_of_station_station (threshold : Z) (d : list (string * event))
    (s : string) (e : list emission) :
  crashes_of_station threshold d s = Some e →
  Forall (λ em, crash_station em.2 = Some s) e.
Proof.
  unfold crashes_of_station. intros He. simplify_option_eq.
  eapply mapM_concat_Forall; [|eassumption].
  intros i y Hi. unfold crash_at in Hi. simplify_option_eq.
  case_match; repeat constructor.
Qed.

(** C7.  For every station (of non-empty name), the System Crash incidents
    of that station are, in order, one incident for each pair of
    consecutive events of the station's stream, sorted by time, whose gap
    is at least the threshold (a gap equal to the threshold counts); the
    incident carries the time of the later event and the gap as
    [duration_seconds].  Every incident emitted is such an incident. *)
Theorem system_crash_per_gap (all_events : list event) (threshold : Z)
    (out : list incident) :
  detect_system_crashes all_events threshold = Some out →
  Forall (λ x, ∃ station, crash_station (inc_data x) = Some station
                          ∧ station ≠ "") out
  ∧ ∀ station : string, station ≠ "" →
      ∃ raw_times : list Z,
        Forall2 (λ x t, timestamp x = Some t)
                (filter (λ x, station_id x = Some station) all_events) raw_times
        ∧ ∀ times : list Z, Sorted Z.le times → times ≡ₚ raw_times →
            (λ x, (inc_timestamp x, inc_data x))
              <$> filter (λ x, crash_station (inc_data x) = Some station) out
            = (λ p, (p.1, UnexpectedSystemsCrash station p.2))
              <$> gaps threshold times.
Proof.
  unfold detect_system_crashes. intros Hout. simplify_option_eq.
  match goal with Hm : mapM _ _ = Some ?k |- _ =>
    rename Hm into Hloop; rename k into emitted end.
  set (d := station_events_of all_events) in *.
  split.
  - apply (number_Forall (λ dt, ∃ station, crash_station dt = Some station
                                           ∧ station ≠ "")).
    apply mapM_Some_1 in Hloop.
    assert (Forall (λ s, s ≠ "") (insertion_order d.*1)) as Hkeys.
    { apply Forall_forall. intros s Hs.
      apply (proj1 (elem_of_insertion_order _ _)) in Hs.
      exact (station_events_of_truthy all_events s Hs). }
    clear -Hloop Hkeys.
    induction Hloop as [|s e keys emitted He _ IH]; [constructor|].
    apply Forall_cons in Hkeys as [Hs Hkeys].
    rewrite concat_cons. apply Forall_app. split; [|by apply IH].
    apply crashes_of_station_station in He.
    eapply Forall_impl; [exact He|]. intros em Hem. by exists s.
  - intros station Hne.
    pose proof (number_filter (λ dt, crash_station dt = Some station)
                  (concat emitted)) as Hout.
    cbv beta in Hout.
    rewrite (filter_concat_keys _ _ _ station (NoDup_insertion_order _) Hloop)
      in Hout by apply crashes_of_station_station.
    pose proof (station_get_station_events all_events station Hne) as Hget.
    fold d in Hget.
    destruct (decide (station ∈ insertion_order d.*1)) as [Hin|Hnin].
    + apply mapM_Some_1 in Hloop.
      destruct (crashes_of_station threshold d station) as [e|] eqn:He.
      2:{ exfalso. clear -Hloop Hin He.
          induction Hloop as [|s e keys emitted Hs _ IH];
            [by apply elem_of_nil in Hin|].
          apply elem_of_cons in Hin as [->|Hin]; [congruence|auto]. }
      simpl in Hout. unfold crashes_of_station in He.
      destruct (sort_by timestamp (station_get d station)) as [sl|] eqn:Hsl;
        [|done].
      simpl in He.
      destruct (sort_by_timestamp_times _ _ Hsl)
        as (raw & times' & Hraw & Htimes & Hsorted & Hperm).
      exists raw. split; [by rewrite <- Hget|]. intros times Hs Hp.
      assert (times = times') as ->.
      { apply (Sorted_unique Z.le); [done|done|]. by rewrite Hp, Hperm. }
      destruct (crash_loop station threshold sl times' Htimes) as (em & Hm & Hc).
      rewrite Hm in He. simpl in He. injection He as <-. by rewrite Hout.
    + rewrite elem_of_insertion_order in Hnin.
      rewrite (station_get_absent d station Hnin) in Hget.
      exists []. split; [rewrite <- Hget; constructor|].
      intros times _ Hp. apply Permutation_nil_r in Hp. subst times.
      by rewrite Hout.
Qed.

Lemma system_crash_per_gap_witness :
  detect_system_crashes two_stations 120
  = Some [{| inc_timestamp := 150; event_id := "E000";
             inc_data := UnexpectedSystemsCrash "SCC2" 150 |}]
  ∧ ∃ raw_times : list Z,
      Forall2 (λ x t, timestamp x = Some t)
              (filter (λ x, station_id x = Some "SCC2") two_stations) raw_times
      ∧ ∀ times : list Z, Sorted Z.le times → times ≡ₚ raw_times →
          (λ x, (inc_timestamp x, inc_data x))
            <$> filter (λ x, crash_station (inc_data x) = Some "SCC2")
                  [{| inc_timestamp := 150; event_id := "E000";
                      inc_data := UnexpectedSystemsCrash "SCC2" 150 |}]
          = (λ p, (p.1, UnexpectedSystemsCrash "SCC2" p.2)) <$> gaps 120 times.
Proof.
  split; [vm_compute; reflexivity|].
  apply (proj2 (system_crash_per_gap two_stations 120 _ eq_refl) "SCC2").
  discriminate.
Defined.

(** ** Absent SKUs *)

(** C8 at the failing input.  A POS transaction without SKU and an RFID
    reading without SKU, three seconds apart at one station, yield a
    Success Operation incident whose [product_sku] is absent; and a POS
    transaction of "1234" with that RFID reading yields a Scanner Avoidance
    incident whose [product_sku] is absent. *)
Lemma absent_skus_are_correlated :
  detect_success_operations [scan_without_sku] [read_without_sku] 10
  = Some [{| inc_timestamp := 100; event_id := "E000";
             inc_data := SuccesOperation "SCC1" (Some "C1") None |}]
  ∧ detect_scanner_avoidance [scan_1234] [read_without_sku] 10
    = Some [{| inc_timestamp := 100; event_id := "E000";
               inc_data := ScannerAvoidance "SCC1" (Some "C1") None |}].
Proof. split; vm_compute; reflexivity. Qed.

(** * Further properties of the batch pipeline *)

(** ** Loading *)

Lemma filter_snd_own_key (t : Z) (k : list (Z * event)) :
  Forall (λ p, timestamp p.2 = Some p.1) k →
  filter (λ x, timestamp x = Some t) k.*2 = (filter (λ p, p.1 = t) k).*2.
Proof.
  induction 1 as [|p k Hp _ IH]; [done|].
  rewrite fmap_cons, !filter_cons, IH, Hp.
  destruct (decide (p.1 = t)) as [->|Hne].
  - by rewrite decide_True.
  - rewrite decide_False; [done|congruence].
Qed.

Lemma with_key_own (l : list event) (keyed : list (Z * event)) :
  mapM (with_key timestamp) l = Some keyed →
  keyed.*2 = l ∧ Forall (λ p, timestamp p.2 = Some p.1) keyed.
Proof.
  intros Hk. split.
  - eapply mapM_fmap_Some_inv; [exact Hk|].
    intros x p Hp. unfold with_key in Hp. by simplify_option_eq.
  - apply mapM_Some_1 in Hk.
    induction Hk as [|x p l k Hp _ IH]; constructor; [|done].
    unfold with_key in Hp. by simplify_option_eq.
Qed.

Lemma own_key_with_key (keyed : list (Z * event)) :
  Forall (λ p, timestamp p.2 = Some p.1) keyed →
  mapM (with_key timestamp) keyed.*2 = Some keyed.
Proof.
  intros Hk. apply mapM_Some_2.
  induction Hk as [|[t x] k Hp _ IH]; constructor; [|done].
  unfold with_key. simpl in *. by rewrite Hp.
Qed.

Lemma sort_by_timestamp_stable (l sl : list event) (t : Z) :
  sort_by timestamp l = Some sl →
  filter (λ x, timestamp x = Some t) sl = filter (λ x, timestamp x = Some t) l.
Proof.
  unfold sort_by. intros Hs.
  destruct (mapM (with_key timestamp) l) as [keyed|] eqn:Hk; [|done].
  simpl in Hs. injection Hs as <-.
  destruct (with_key_own l keyed Hk) as [Hl Hown].
  rewrite filter_snd_own_key by (by rewrite stable_sort_Permutation).
  by rewrite stable_sort_filter, <- filter_snd_own_key, Hl.
Qed.

Lemma stable_sort_sorted {A} (l : list (Z * A)) :
  Sorted Z.le l.*1 → stable_sort l = l.
Proof.
  induction l as [|p l IH]; [done|]. rewrite fmap_cons. intros Hs.
  apply Sorted_inv in Hs as [Hs Hhd]. simpl. rewrite (IH Hs).
  destruct l as [|q l]; [done|]. simpl.
  apply HdRel_inv in Hhd. by rewrite (proj2 (Z.leb_le _ _) Hhd).
Qed.

Lemma sort_by_timestamp_sorted (l sl : list event) :
  sort_by timestamp l = Some sl → sort_by timestamp sl = Some sl.
Proof.
  unfold sort_by. intros Hs.
  destruct (mapM (with_key timestamp) l) as [keyed|] eqn:Hk; [|done].
  simpl in Hs. injection Hs as <-.
  destruct (with_key_own l keyed Hk) as [_ Hown].
  rewrite own_key_with_key by (by rewrite stable_sort_Permutation).
  simpl. by rewrite stable_sort_sorted by apply stable_sort_keys_sorted.
Qed.

(** X1.  [load_all_data] returns, for each of the four event streams, the
    records of the file rearranged in ascending order of timestamp, with
    the records of equal timestamp in the order of the file; the inventory
    snapshots and the product list are returned as read, unsorted. *)
Theorem load_all_data_sorts_stably (files d : dataset) :
  load_all_data files = Some d →
  Forall2 (λ raw loaded,
             loaded ≡ₚ raw
             ∧ (∃ times, Forall2 (λ x t, timestamp x = Some t) loaded times
                         ∧ Sorted Z.le times)
             ∧ ∀ t, filter (λ x, timestamp x = Some t) loaded
                    = filter (λ x, timestamp x = Some t) raw)
    [pos_transactions files; rfid_readings files;
     queue_monitoring files; product_recognition files]
    [pos_transactions d; rfid_readings d;
     queue_monitoring d; product_recognition d]
  ∧ inventory_snapshots d = inventory_snapshots files
  ∧ products_list d = products_list files.
Proof.
  unfold load_all_data. intros Hd. simplify_option_eq.
  split; [|done].
  repeat (constructor;
          [split_and!;
           [by eapply sort_by_Permutation
           |match goal with Hs : sort_by timestamp ?l = Some ?sl |- _ =>
              destruct (sort_by_timestamp_times l sl Hs)
                as (? & times & _ & ? & ? & _); by exists times end
           |intros t; by apply sort_by_timestamp_stable]|]).
  constructor.
Qed.

Lemma load_all_data_sorts_stably_witness :
  Forall2 (λ raw loaded,
             loaded ≡ₚ raw
             ∧ (∃ times, Forall2 (λ x t, timestamp x = Some t) loaded times
                         ∧ Sorted Z.le times)
             ∧ ∀ t, filter (λ x, timestamp x = Some t) loaded
                    = filter (λ x, timestamp x = Some t) raw)
    [pos_transactions unsorted_files; rfid_readings unsorted_files;
     queue_monitoring unsorted_files; product_recognition unsorted_files]
    [pos_transactions sorted_files; rfid_readings sorted_files;
     queue_monitoring sorted_files; product_recognition sorted_files]
  ∧ inventory_snapshots sorted_files = inventory_snapshots unsorted_files
  ∧ products_list sorted_files = products_list unsorted_files.
Proof.
  apply (load_all_data_sorts_stably unsorted_files sorted_files).
  vm_compute; reflexivity.
Defined.

(** X2.  Loading is idempotent: the streams that [load_all_data] returns
    are left as they are when they are loaded again. *)
Theorem load_all_data_idempotent (files d : dataset) :
  load_all_data files = Some d → load_all_data d = Some d.
Proof.
  unfold load_all_data. intros Hd. simplify_option_eq.
  repeat match goal with
         | Hs : sort_by timestamp _ = Some _ |- _ =>
             apply sort_by_timestamp_sorted in Hs; rewrite Hs; clear Hs
         end.
  done.
Qed.

Lemma load_all_data_idempotent_witness :
  load_all_data sorted_files = Some sorted_files.
Proof.
  apply (load_all_data_idempotent unsorted_files sorted_files).
  vm_compute; reflexivity.
Defined.

(** ** The log *)

Lemma unnumbered_reassign_event_ids (l : list incident) :
  unnumbered <$> reassign_event_ids l = unnumbered <$> l.
Proof.
  unfold reassign_event_ids. rewrite fmap_imap.
  rewrite (imap_ext _ (const unnumbered)) by done. apply imap_const.
Qed.

(** X3.  The log of [process_events] holds exactly the incidents that the
    eight detectors emitted, each as often as it was emitted: sorting and
    renumbering drop nothing, add nothing, and change only the identifiers. *)
Theorem process_events_keeps_incidents `{FloatArith}
    (files : dataset) (log : list incident) :
  process_events files = Some log →
  ∃ (d : dataset) (detected : list (list incident)),
    load_all_data files = Some d ∧ detect_all d = Some detected
    ∧ unnumbered <$> log ≡ₚ unnumbered <$> concat detected
    ∧ length log = length (concat detected).
Proof.
  unfold process_events. intros Hlog. simplify_option_eq.
  eexists _, _. split_and!; [done|done|..].
  - unfold finalize. rewrite unnumbered_reassign_event_ids.
    apply fmap_Permutation.
    rewrite stable_sort_Permutation, <- list_fmap_compose. by rewrite list_fmap_id.
  - unfold finalize, reassign_event_ids.
    rewrite length_imap, length_fmap.
    by rewrite stable_sort_Permutation, length_fmap.
Qed.

Lemma process_events_keeps_incidents_witness :
  ∃ (d : dataset) (detected : list (list incident)),
    load_all_data tie_files = Some d
    ∧ detect_all (H := exact_arith) d = Some detected
    ∧ unnumbered <$> tie_log ≡ₚ unnumbered <$> concat detected
    ∧ length tie_log = length (concat detected).
Proof.
  apply (process_events_keeps_incidents (H := exact_arith) tie_files).
  vm_compute; reflexivity.
Defined.

(** X4.  Two different positions never get the same identifier, also
    beyond position 999, where the identifier has more than three digits;
    and an identifier has at least four characters. *)
Theorem event_ids_are_distinct (i j : nat) :
  (i ≠ j → format_event_id i ≠ format_event_id j)
  ∧ (4 ≤ String.length (format_event_id i))%nat.
Proof.
  split; [|apply length_format_event_id].
  intros Hij Heq. by apply Hij, format_event_id_inj.
Qed.

Lemma event_ids_are_distinct_witness :
  format_event_id 7 ≠ format_event_id 1007
  ∧ (4 ≤ String.length (format_event_id 7))%nat.
Proof.
  destruct (event_ids_are_distinct 7 1007) as [Hd Hl].
  split; [apply Hd; lia|exact Hl].
Defined.

(** ** Detectors that look at one record at a time *)

Lemma unnumbered_number (l : list emission) : unnumbered <$> number l = l.
Proof.
  unfold number. rewrite fmap_imap.
  rewrite (imap_ext _ (const id)); [by rewrite imap_const, list_fmap_id|].
  by intros i [t d] _.
Qed.

Lemma number_Forall2 {A} (R : A → Z * event_data → Prop) (l : list A)
    (emitted : list emission) :
  Forall2 R l emitted →
  Forall2 (λ x inc, R x (unnumbered inc)) l (number emitted).
Proof.
  intros Hl. apply (Forall2_fmap_r unnumbered R). by rewrite unnumbered_number.
Qed.

(** A loop whose body emits one incident for the records that satisfy [P]
    and none for the others. *)
Lemma loop_at_most_one {A} (body : A → option (list emission)) (P : A → Prop)
    `{∀ x, Decision (P x)} (R : A → Z * event_data → Prop)
    (l : list A) (emitted : list (list emission)) :
  (∀ x e, body x = Some e → (P x ∧ ∃ m, e = [m] ∧ R x m) ∨ (¬ P x ∧ e = [])) →
  mapM body l = Some emitted → Forall2 R (filter P l) (concat emitted).
Proof.
  intros Hbody Hm. apply mapM_Some_1 in Hm.
  induction Hm as [|x e l emitted He _ IH]; [constructor|].
  rewrite filter_cons, concat_cons.
  destruct (Hbody x e He) as [(HP & m & -> & HR)|(HP & ->)].
  - rewrite decide_True by done. by constructor.
  - by rewrite decide_False.
Qed.

(** X5.  [detect_long_queues] emits one incident for each queue sample whose
    customer count is strictly above the threshold, in the order of the
    samples, with the timestamp and station of the sample and its count as
    [num_of_customers]; a sample at or below the threshold, or without a
    count (read as 0), yields nothing. *)
Theorem long_queue_per_sample_above (queue_monitoring : list event)
    (threshold : Z) (out : list incident) :
  detect_long_queues queue_monitoring threshold = Some out →
  Forall2 (λ queue x,
             timestamp queue = Some (inc_timestamp x)
             ∧ ∃ station, station_id queue = Some station
                          ∧ inc_data x = LongQueueLength station (count_of queue))
    (filter (λ queue, threshold < count_of queue) queue_monitoring) out.
Proof.
  unfold detect_long_queues. intros Hout.
  destruct (mapM (long_queue_of threshold) queue_monitoring) as [emitted|] eqn:Hm;
    [|done].
  simpl in Hout. injection Hout as <-.
  apply (number_Forall2
           (λ queue m, timestamp queue = Some m.1
                       ∧ ∃ station, station_id queue = Some station
                                    ∧ m.2 = LongQueueLength station (count_of queue))).
  eapply loop_at_most_one; [|exact Hm].
  intros x e He. unfold long_queue_of in He. fold (count_of x) in He.
  destruct (station_id x) as [s|]; [|done]. simpl in He.
  destruct (Z.ltb_spec threshold (count_of x)) as [Hlt|Hge].
  - destruct (timestamp x) as [t|]; [|done]. simpl in He. injection He as <-.
    left. split; [done|]. eexists. split; [done|]. simpl. eauto.
  - injection He as <-. right. split; [lia|done].
Qed.

Lemma long_queue_per_sample_above_witness :
  Forall2 (λ queue x,
             timestamp queue = Some (inc_timestamp x)
             ∧ ∃ station, station_id queue = Some station
                          ∧ inc_data x = LongQueueLength station (count_of queue))
    (filter (λ queue, 5 < count_of queue) queue_samples)
    [{| inc_timestamp := 10; event_id := "E000";
        inc_data := LongQueueLength "SCC1" 6 |};
     {| inc_timestamp := 30; event_id := "E001";
        inc_data := LongQueueLength "SCC3" 9 |}].
Proof.
  apply (long_queue_per_sample_above queue_samples 5). vm_compute; reflexivity.
Defined.

(** X6.  [detect_long_queues] reads the station of every sample but the
    timestamp only of a sample it reports: it raises exactly when some
    sample has no station, or has a count above the threshold and no
    timestamp.  A sample without timestamp that is not above the threshold
    goes unnoticed. *)
Theorem long_queue_raises_iff (queue_monitoring : list event) (threshold : Z) :
  detect_long_queues queue_monitoring threshold = None ↔
  Exists (λ queue, station_id queue = None
                   ∨ (threshold < count_of queue ∧ timestamp queue = None))
         queue_monitoring.
Proof.
  unfold detect_long_queues.
  assert (∀ x, long_queue_of threshold x = None ↔
               station_id x = None
               ∨ (threshold < count_of x ∧ timestamp x = None)) as Hbody.
  { intros x. unfold long_queue_of. fold (count_of x).
    destruct (station_id x) as [s|]; simpl; [|by split; [left|]].
    destruct (Z.ltb_spec threshold (count_of x)) as [Hlt|Hge].
    - destruct (timestamp x) as [t|]; simpl.
      + split; [done|]. by intros [?|[_ ?]].
      + split; [by right|done].
    - split; [done|]. intros [?|[? _]]; [done|lia]. }
  split.
  - intros Hn.
    destruct (mapM (long_queue_of threshold) queue_monitoring) as [e|] eqn:Hm;
      [done|].
    apply mapM_None_1 in Hm. eapply Exists_impl; [exact Hm|].
    intros x Hx. by apply Hbody.
  - intros Hex.
    rewrite (mapM_None_2 (long_queue_of threshold) queue_monitoring); [done|].
    eapply Exists_impl; [exact Hex|]. intros x Hx. by apply Hbody.
Qed.

Lemma Qgtb_lt (x y : Q) : Qgtb x y = true ↔ (y < x)%Q.
Proof.
  unfold Qgtb. rewrite negb_true_iff, <- not_true_iff_false, Qle_bool_iff.
  split; [apply Qnot_le_lt|apply Qlt_not_le].
Qed.

Lemma int_of_Q_nonneg_floor (x : Q) : (0 <= x)%Q → int_of_Q x = Qfloor x.
Proof.
  destruct x as [n d]. unfold Qle, int_of_Q, Qfloor. simpl. intros Hn.
  apply Z.quot_div_nonneg; lia.
Qed.

(** X7.  [detect_long_wait_times] emits one incident for each queue sample
    whose average dwell time is strictly above the threshold, in order, and
    reports the dwell time truncated to whole seconds.  For a threshold that
    is not negative the reported [wait_time_seconds] is at least the
    truncated threshold, and can be equal to it (300.5 is reported as 300
    against a threshold of 300). *)
Theorem long_wait_truncates_dwell (queue_monitoring : list event)
    (threshold_seconds : Q) (out : list incident) :
  detect_long_wait_times queue_monitoring threshold_seconds = Some out →
  Forall2 (λ queue x,
             timestamp queue = Some (inc_timestamp x)
             ∧ ∃ station, station_id queue = Some station
                 ∧ inc_data x = LongWaitTime station (int_of_Q (dwell_of queue)))
    (filter (λ queue, (threshold_seconds < dwell_of queue)%Q) queue_monitoring) out
  ∧ ((0 <= threshold_seconds)%Q →
     Forall (λ x, ∃ station wait, inc_data x = LongWaitTime station wait
                                  ∧ int_of_Q threshold_seconds ≤ wait) out).
Proof.
  unfold detect_long_wait_times. intros Hout.
  destruct (mapM (long_wait_of threshold_seconds) queue_monitoring)
    as [emitted|] eqn:Hm; [|done].
  simpl in Hout. injection Hout as <-.
  assert (Forall2 (λ queue x,
             timestamp queue = Some (inc_timestamp x)
             ∧ ∃ station, station_id queue = Some station
                 ∧ inc_data x = LongWaitTime station (int_of_Q (dwell_of queue)))
            (filter (λ queue, (threshold_seconds < dwell_of queue)%Q)
                    queue_monitoring)
            (number (concat emitted))) as Hall.
  { apply (number_Forall2
             (λ queue m, timestamp queue = Some m.1
                ∧ ∃ station, station_id queue = Some station
                    ∧ m.2 = LongWaitTime station (int_of_Q (dwell_of queue)))).
    eapply loop_at_most_one; [|exact Hm].
    intros x e He. unfold long_wait_of in He. fold (dwell_of x) in He.
    destruct (station_id x) as [s|]; [|done]. simpl in He.
    destruct (Qgtb (dwell_of x) threshold_seconds) eqn:Hgt.
    - apply Qgtb_lt in Hgt.
      destruct (timestamp x) as [t|]; [|done]. simpl in He. injection He as <-.
      left. split; [done|]. eexists. split; [done|]. simpl. eauto.
    - injection He as <-. right. split; [|done].
      intros Hlt%Qgtb_lt. congruence. }
  split; [exact Hall|]. intros Hthr.
  apply Forall2_Forall_r with (Q := λ x, ∃ station wait,
      inc_data x = LongWaitTime station wait ∧ int_of_Q threshold_seconds ≤ wait)
    in Hall; [exact Hall|].
  apply Forall_forall. intros queue [Hlt _]%list_elem_of_filter x (_ & s & _ & ->).
  exists s, (int_of_Q (dwell_of queue)). split; [done|].
  rewrite !int_of_Q_nonneg_floor;
    [|by apply Qlt_le_weak, (Qle_lt_trans _ threshold_seconds)|done].
  by apply Qfloor_resp_le, Qlt_le_weak.
Qed.

Lemma long_wait_truncates_dwell_witness :
  detect_long_wait_times dwell_samples 300%Q
  = Some [{| inc_timestamp := 20; event_id := "E000";
             inc_data := LongWaitTime "SCC2" 300 |};
          {| inc_timestamp := 30; event_id := "E001";
             inc_data := LongWaitTime "SCC3" 420 |}]
  ∧ ((0 <= 300)%Q →
     Forall (λ x, ∃ station wait, inc_data x = LongWaitTime station wait
                                  ∧ int_of_Q 300%Q ≤ wait)
       [{| inc_timestamp := 20; event_id := "E000";
           inc_data := LongWaitTime "SCC2" 300 |};
        {| inc_timestamp := 30; event_id := "E001";
           inc_data := LongWaitTime "SCC3" 420 |}]).
Proof.
  split; [vm_compute; reflexivity|].
  apply (long_wait_truncates_dwell dwell_samples 300%Q). vm_compute; reflexivity.
Defined.

(** ** Barcode switching *)







(** ** Success operations *)

Lemma rfid_matches_spec (w t : Z) (pos_sku : option string) (rfids : list event)
    (b : bool) :
  rfid_matches w t pos_sku rfids = Some b →
  b = true ↔ Exists (λ r, ∃ rt, timestamp r = Some rt ∧ in_window w rt t = true
                                ∧ sku (data r) = pos_sku) rfids.
Proof.
  revert b. induction rfids as [|r rfids IH]; intros b Hb; simpl in Hb.
  - injection Hb as <-. split; [done|]. by intros ?%Exists_nil.
  - destruct (timestamp r) as [rt|] eqn:Hrt; [|done]. simpl in Hb.
    rewrite Exists_cons.
    destruct (in_window w rt t) eqn:Hw; simpl in Hb.
    + destruct (decide (sku (data r) = pos_sku)) as [Hk|Hk].
      * rewrite bool_decide_eq_true_2 in Hb by done. injection Hb as <-.
        split; [|done]. intros _. left. by exists rt.
      * rewrite bool_decide_eq_false_2 in Hb by done.
        rewrite (IH b Hb). split; [by right|].
        intros [(rt' & _ & _ & ?)|?]; [done|done].
    + rewrite (IH b Hb). split; [by right|].
      intros [(rt' & Hrt' & Hw' & _)|?]; [|done].
      rewrite Hrt in Hrt'. injection Hrt' as <-. congruence.
Qed.

(** X9.  [detect_success_operations] emits one incident for each POS
    transaction for which some RFID reading of the same station, within the
    window (bounds included), carries the same SKU, and none for the other
    transactions; the incidents follow the order of the transactions.  The
    location of the reading plays no part: a reading outside the scan area
    counts. *)
Theorem success_operation_per_matched_pos
    (pos_transactions rfid_readings : list event) (window : Z)
    (out : list incident) :
  detect_success_operations pos_transactions rfid_readings window = Some out →
  Forall2 (λ pos x,
             timestamp pos = Some (inc_timestamp x)
             ∧ ∃ station, station_id pos = Some station
                 ∧ inc_data x = SuccesOperation station (customer_id (data pos))
                                  (sku (data pos)))
    (filter (λ pos, Exists (λ r, reads_same_sku window pos r = true) rfid_readings)
            pos_transactions)
    out.
Proof.
  unfold detect_success_operations. intros Hout.
  destruct (by_station rfid_readings) as [d|] eqn:Hd; [|done]. simpl in Hout.
  destruct (mapM (success_operation_of_pos window d) pos_transactions)
    as [emitted|] eqn:Hm; [|done].
  simpl in Hout. injection Hout as <-.
  pose proof (λ s, station_get_by_station _ d s Hd) as Hget.
  apply (number_Forall2
           (λ pos m, timestamp pos = Some m.1
              ∧ ∃ station, station_id pos = Some station
                  ∧ m.2 = SuccesOperation station (customer_id (data pos))
                            (sku (data pos)))).
  eapply loop_at_most_one; [|exact Hm].
  intros x e He. unfold success_operation_of_pos in He.
  destruct (station_id x) as [s|] eqn:Hs; [|done]. simpl in He.
  destruct (timestamp x) as [t|] eqn:Ht; [|done]. simpl in He.
  destruct (rfid_matches window t (sku (data x)) (station_get d s))
    as [b|] eqn:Hb; [|done].
  simpl in He. injection He as <-.
  apply rfid_matches_spec in Hb. rewrite Hget in Hb.
  assert (b = true ↔ Exists (λ r, reads_same_sku window x r = true) rfid_readings)
    as Hiff.
  { rewrite Hb, !Exists_exists. unfold reads_same_sku. rewrite Hs, Ht. split.
    - intros (r & [Hrs Hr]%list_elem_of_filter & rt & Hrt & Hw & Hk).
      exists r. split; [done|]. rewrite Hrt, Hw.
      by rewrite !bool_decide_eq_true_2.
    - intros (r & Hr & Hm').
      destruct (timestamp r) as [rt|] eqn:Hrt; [|done].
      apply andb_true_iff in Hm' as [[Hrs Hw]%andb_true_iff Hk].
      apply bool_decide_eq_true in Hrs, Hk.
      exists r. split; [by apply list_elem_of_filter|]. by exists rt. }
  destruct b.
  - left. split; [by apply Hiff|]. eexists. split; [done|]. simpl. eauto.
  - right. split; [|done]. intros Hex. apply Hiff in Hex. done.
Qed.

Lemma success_operation_per_matched_pos_witness :
  detect_success_operations [scan_1234] [read_9999; read_1234_elsewhere] 10
  = Some [{| inc_timestamp := 100; event_id := "E000";
             inc_data := SuccesOperation "SCC1" (Some "C1") (Some "1234") |}]
  ∧ Forall2 (λ pos x,
               timestamp pos = Some (inc_timestamp x)
               ∧ ∃ station, station_id pos = Some station
                   ∧ inc_data x = SuccesOperation station (customer_id (data pos))
                                    (sku (data pos)))
      (filter (λ pos, Exists (λ r, reads_same_sku 10 pos r = true)
                        [read_9999; read_1234_elsewhere])
              [scan_1234])
      [{| inc_timestamp := 100; event_id := "E000";
          inc_data := SuccesOperation "SCC1" (Some "C1") (Some "1234") |}].
Proof.
  split; [vm_compute; reflexivity|].
  apply (success_operation_per_matched_pos
           [scan_1234] [read_9999; read_1234_elsewhere] 10).
  vm_compute; reflexivity.
Defined.

(** ** Inventory discrepancies of the batch pipeline *)








(** * The streaming detectors *)

Section LiveScannerAvoidance.
Import Live.
Implicit Types (reads : gmap string (option Z * option string))
               (feed : list stream_data).

Lemma detect_scanner_avoidance_other stream reads (s : string) :
  ¬ scan_area_read s stream →
  (detect_scanner_avoidance stream reads).1 !! s = reads !! s.
Proof.
  intros Hno. unfold detect_scanner_avoidance.
  destruct (sd_station_id stream) as [station|] eqn:Hs; [|done].
  destruct (truthy (Some station)); [|done].
  destruct (decide (dataset stream = Some "RFID_data")) as [Hd|Hd].
  - destruct (decide (location (sd_data stream) = Some "IN_SCAN_AREA")) as [Hl|Hl];
      [|done].
    simpl. apply lookup_insert_ne. intros ->. by apply Hno.
  - repeat case_match; done.
Qed.

Lemma last_rfid_reads_after_other feed reads (s : string) :
  Forall (λ y, ¬ scan_area_read s y) feed →
  last_rfid_reads_after feed reads !! s = reads !! s.
Proof.
  intros Hf. revert reads. induction Hf as [|y feed Hy _ IH]; intros reads; [done|].
  simpl. rewrite IH. by apply detect_scanner_avoidance_other.
Qed.

Lemma detect_scanner_avoidance_read stream reads (s : string) :
  s ≠ "" → scan_area_read s stream →
  (detect_scanner_avoidance stream reads).1 !! s
  = Some (sd_timestamp stream, sku (sd_data stream)).
Proof.
  intros Hs (Hst & Hd & Hl). unfold detect_scanner_avoidance. rewrite Hst.
  simpl. destruct (String.eqb_spec s ""); [done|]. simpl.
  rewrite decide_True by done. rewrite decide_True by done. simpl.
  apply lookup_insert_eq.
Qed.

(** X11.  The streaming scanner-avoidance detector remembers, per station,
    only the last RFID reading seen in the scan area.  A POS transaction at
    the station yields an incident exactly when that last reading has a
    non-empty SKU other than the scanned one, both records have a
    timestamp, and the transaction is stamped less than five seconds after
    the reading (five seconds exactly do not count, and a reading stamped
    later than the transaction does); the incident names the SKU of that
    reading.  Earlier readings are forgotten. *)
Theorem scanner_avoidance_uses_last_read
    (before after : list stream_data) (read pos : stream_data)
    (reads : gmap string (option Z * option string)) (station : string)
    (x : incident) :
  station ≠ "" →
  scan_area_read station read →
  Forall (λ y, ¬ scan_area_read station y) after →
  sd_station_id pos = Some station → dataset pos = Some "POS_Transactions" →
  (detect_scanner_avoidance pos
     (last_rfid_reads_after (before ++ read :: after)%list reads)).2 = Some x
  ↔ ∃ now read_time k,
      sku (sd_data read) = Some k ∧ k ≠ "" ∧ sku (sd_data pos) ≠ Some k
      ∧ sd_timestamp pos = Some now ∧ sd_timestamp read = Some read_time
      ∧ now - read_time < 5
      ∧ x = {| inc_timestamp := now; event_id := "E001";
               inc_data := ScannerAvoidance station (customer_id (sd_data pos))
                             (Some k) |}.
Proof.
  intros Hne Hread Hafter Hst Hds.
  assert (last_rfid_reads_after (before ++ read :: after)%list reads !! station
          = Some (sd_timestamp read, sku (sd_data read))) as Hlast.
  { unfold last_rfid_reads_after. rewrite foldl_app. simpl.
    fold (last_rfid_reads_after before reads).
    fold (last_rfid_reads_after after
            (detect_scanner_avoidance read (last_rfid_reads_after before reads)).1).
    rewrite last_rfid_reads_after_other by done.
    by apply detect_scanner_avoidance_read. }
  unfold detect_scanner_avoidance. rewrite Hst. simpl.
  destruct (String.eqb_spec station ""); [done|]. simpl.
  rewrite decide_False by (rewrite Hds; discriminate).
  rewrite decide_True by done. rewrite Hlast. simpl.
  destruct (sku (sd_data read)) as [k|] eqn:Hk; simpl.
  2:{ split; [done|]. by intros (? & ? & ? & ? & _). }
  destruct (String.eqb_spec k "") as [->|Hk0]; simpl.
  { split; [done|]. intros (? & ? & ? & [= <-] & ? & _). done. }
  destruct (decide (Some k ≠ sku (sd_data pos))) as [Hd|Hd].
  2:{ rewrite bool_decide_eq_false_2 by done. simpl. split; [done|].
      intros (? & ? & ? & [= <-] & _ & Hp & _). destruct Hd. congruence. }
  rewrite bool_decide_eq_true_2 by done. simpl.
  destruct (sd_timestamp pos) as [now|] eqn:Hnow; simpl.
  2:{ split; [done|]. by intros (? & ? & ? & _ & _ & _ & ? & _). }
  destruct (sd_timestamp read) as [rt|] eqn:Hrt; simpl.
  2:{ split; [done|]. by intros (? & ? & ? & _ & _ & _ & _ & ? & _). }
  destruct (Z.ltb_spec (now - rt) 5) as [Hlt|Hge]; simpl.
  - split.
    + intros [= <-]. exists now, rt, k. split_and!; try done; congruence.
    + intros (? & ? & ? & [= <-] & _ & _ & [= <-] & [= <-] & _ & ->). done.
  - split; [done|].
    intros (? & ? & ? & _ & _ & _ & [= <-] & [= <-] & ? & _). lia.
Qed.

Lemma scanner_avoidance_uses_last_read_witness :
  (detect_scanner_avoidance (live_sale 100 "SCC1" (Some "1234"))
     (last_rfid_reads_after
        ([live_read 97 "SCC1" (Some "1111")]
         ++ live_read 98 "SCC1" (Some "9999")
         :: [live_sale 99 "SCC2" (Some "5555")])%list ∅)).2
  = Some {| inc_timestamp := 100; event_id := "E001";
            inc_data := ScannerAvoidance "SCC1" (Some "C1") (Some "9999") |}.
Proof.
  apply (scanner_avoidance_uses_last_read
           [live_read 97 "SCC1" (Some "1111")]
           [live_sale 99 "SCC2" (Some "5555")]
           (live_read 98 "SCC1" (Some "9999"))
           (live_sale 100 "SCC1" (Some "1234")) ∅ "SCC1").
  - discriminate.
  - by repeat split.
  - repeat constructor. intros (Hs & _). discriminate Hs.
  - reflexivity.
  - reflexivity.
  - exists 100, 98, "9999". split_and!; try done; lia.
Defined.

End LiveScannerAvoidance.

(** X12.  On a queue record that has a station, the streaming
    [detect_long_queue] and the batch [detect_long_queues] with its default
    threshold agree: both raise (the record is above five and has no
    timestamp), or both report nothing, or both report the same incident up
    to its identifier.  They differ on a record without station that is not
    above five: the streaming detector skips it, the batch detector raises. *)
Theorem live_long_queue_agrees_with_batch (stream : Live.stream_data) :
  Live.dataset stream = Some "Queue_monitor" →
  (is_Some (Live.sd_station_id stream) →
   fmap unnumbered <$> Live.detect_long_queue stream
   = (λ out, unnumbered <$> head out)
       <$> detect_long_queues [Live.as_event stream] 5)
  ∧ (Live.sd_station_id stream = None →
     default 0 (customer_count (Live.sd_data stream)) ≤ 5 →
     Live.detect_long_queue stream = Some None
     ∧ detect_long_queues [Live.as_event stream] 5 = None).
Proof.
  intros Hd. unfold Live.detect_long_queue, detect_long_queues, long_queue_of.
  rewrite decide_True by done. simpl.
  destruct (Live.sd_station_id stream) as [s|]; simpl.
  - split; [|done]. intros _.
    destruct (5 <? default 0 (customer_count (Live.sd_data stream))); [|done].
    by destruct (Live.sd_timestamp stream).
  - split; [by intros [? ?]|]. intros _ Hle.
    by destruct (Z.ltb_spec 5 (default 0 (customer_count (Live.sd_data stream))));
      [lia|].
Qed.

Lemma live_long_queue_agrees_with_batch_witness :
  fmap unnumbered <$> Live.detect_long_queue (live_queue 10 "SCC1" 6)
  = (λ out, unnumbered <$> head out)
      <$> detect_long_queues [Live.as_event (live_queue 10 "SCC1" 6)] 5.
Proof.
  apply (proj1 (live_long_queue_agrees_with_batch (live_queue 10 "SCC1" 6) eq_refl)).
  by eexists.
Defined.

(** * The weight detector of the batch pipeline *)


